(** * YouTube transcript extractor: a shallow embedding and its properties

    The embedded program is [src/youtube_transcript_extractor.py]: the
    video-id extractor, the caption catalogue lookup, the transcript
    normaliser and the export file naming.  Python values are modelled by

    - [string] for [str], one [ascii] per character (the code points
      below 256),
    - [spec_float] at precision 53 and maximal exponent 1024 for [float],
    - [Z] for [int], [list] for [list],
    - [result] (an exception or a value) for code that can raise.

    The caption service and the clock are outside the program; they are
    passed in as data: the [transcript] handles with the outcome of their
    calls, the function [list_transcripts], the formatted time stamps.  The
    messages that the program writes on the page ([st.info], [st.error],
    ...) are not part of the model. *)

From Stdlib Require Import String Ascii List ZArith Lia Bool Arith PeanoNat.
From Stdlib Require Import Floats.SpecFloat.
From Stdlib Require DecimalString.
From Stdlib Require Import Sorting.Permutation.
Import ListNotations.

Local Open Scope string_scope.
Local Open Scope list_scope.

(* ===================================================================== *)
(** * Python strings *)
(* ===================================================================== *)

Module PyStr.

(** [s[:n]] *)
Fixpoint take (n : nat) (s : string) : string :=
  match n, s with
  | S k, String c s' => String c (take k s')
  | _, _ => EmptyString
  end.

(** [s[n:]] *)
Fixpoint drop (n : nat) (s : string) : string :=
  match n, s with
  | S k, String _ s' => drop k s'
  | _, _ => s
  end.

(** [s.startswith(p)] *)
Fixpoint startswith (p s : string) : bool :=
  match p, s with
  | EmptyString, _ => true
  | String a p', String b s' => if Ascii.eqb a b then startswith p' s' else false
  | String _ _, EmptyString => false
  end.

(** [sub in s] *)
Fixpoint contains (sub s : string) : bool :=
  if startswith sub s then true
  else match s with
       | EmptyString => false
       | String _ s' => contains sub s'
       end.

(** [s.find(sub)], with [None] for Python's [-1]. *)
Fixpoint find (sub s : string) : option nat :=
  if startswith sub s then Some 0
  else match s with
       | EmptyString => None
       | String _ s' => option_map S (find sub s')
       end.

(** [s.split(sep)] for a non-empty [sep] (every separator of the program
    is a non-empty literal; Python raises [ValueError] on an empty one).
    The scan goes left to right; [skip] counts the characters of a matched
    separator that are still to be passed over, so matches never overlap. *)
Fixpoint split_from (sep s : string) (skip : nat) : list string :=
  match s with
  | EmptyString => [EmptyString]
  | String c s' =>
      match skip with
      | S k => split_from sep s' k
      | O =>
          if startswith sep s
          then EmptyString :: split_from sep s' (String.length sep - 1)
          else match split_from sep s' 0 with
               | piece :: pieces => String c piece :: pieces
               | [] => [String c EmptyString]
               end
      end
  end.

Definition split (sep s : string) : list string := split_from sep s 0.

(** [s.replace(a, b)] for single characters [a] and [b]. *)
Fixpoint replace_char (a b : ascii) (s : string) : string :=
  match s with
  | EmptyString => EmptyString
  | String c s' => String (if Ascii.eqb c a then b else c) (replace_char a b s')
  end.

(** [sep.join(parts)] *)
Fixpoint join (sep : string) (parts : list string) : string :=
  match parts with
  | [] => EmptyString
  | [p] => p
  | p :: ps => (p ++ sep ++ join sep ps)%string
  end.

(** [c.isspace()] on the code points below 256: TAB, LF, VT, FF, CR,
    FS, GS, RS, US, SPACE, NEL and NBSP. *)
Definition isspace (c : ascii) : bool :=
  let n := nat_of_ascii c in
  (((9 <=? n) && (n <=? 13)) || ((28 <=? n) && (n <=? 32))
   || (n =? 133) || (n =? 160))%nat.

(** [s.lstrip()] *)
Fixpoint lstrip (s : string) : string :=
  match s with
  | String c s' => if isspace c then lstrip s' else s
  | EmptyString => EmptyString
  end.

(** [s.rstrip()] *)
Fixpoint rstrip (s : string) : string :=
  match s with
  | EmptyString => EmptyString
  | String c s' =>
      match rstrip s' with
      | EmptyString => if isspace c then EmptyString else String c EmptyString
      | t => String c t
      end
  end.

(** [s.strip()] *)
Definition strip (s : string) : string := rstrip (lstrip s).

(** [c.lower()] on the code points below 256: A-Z and the accented
    capitals of Latin-1 (all of 192..222 but the multiplication sign). *)
Definition lower_char (c : ascii) : ascii :=
  let n := nat_of_ascii c in
  if (((65 <=? n) && (n <=? 90))
      || ((192 <=? n) && (n <=? 222) && negb (n =? 215)))%nat
  then ascii_of_nat (n + 32) else c.

(** [s.lower()] *)
Fixpoint lower (s : string) : string :=
  match s with
  | EmptyString => EmptyString
  | String c s' => String (lower_char c) (lower s')
  end.

(** [str(n)] for a natural number: its decimal digits. *)
Definition str_nat (n : nat) : string :=
  DecimalString.NilZero.string_of_uint (Nat.to_uint n).

(** [str(z)] for an integer: a minus sign for a negative one, and the
    decimal digits. *)
Definition str_int (z : Z) : string :=
  DecimalString.NilZero.string_of_int (Z.to_int z).

(** [f"{z:02d}"]: the sign counts in the width of two. *)
Definition format_02d (z : Z) : string :=
  if (z <? 0)%Z then str_int z
  else if (z <? 10)%Z then String "0" (str_int z) else str_int z.

(** The text of [s] before the first occurrence of [marker], or all of
    [s] when there is none. *)
Definition upto_first (marker s : string) : string :=
  match find marker s with
  | Some i => take i s
  | None => s
  end.

(** The text of [s] after the first occurrence of [marker]. *)
Definition after_first (marker s : string) : option string :=
  match find marker s with
  | Some i => Some (drop (i + String.length marker) s)
  | None => None
  end.

End PyStr.

(* ===================================================================== *)
(** * Exceptions *)
(* ===================================================================== *)

Inductive exn : Type :=
| IndexError
| KeyError (key : string)
| ValueError
| OverflowError
| ServiceError (message : string).

(** A computation that raises [e] or returns [a]. *)
Definition result (A : Type) : Type := (exn + A)%type.

Definition ret {A} (a : A) : result A := inr a.
Definition raise {A} (e : exn) : result A := inl e.
Definition bind {A B} (c : result A) (k : A -> result B) : result B :=
  match c with
  | inl e => inl e
  | inr a => k a
  end.

Notation "x <- c ;; k" := (bind c (fun x => k))
  (at level 61, c at next level, right associativity).

(** [l[i]] with Python's negative indices. *)
Definition py_index {A} (l : list A) (i : Z) : result A :=
  let n := Z.of_nat (List.length l) in
  let j := if (i <? 0)%Z then (i + n)%Z else i in
  if ((0 <=? j) && (j <? n))%Z
  then match nth_error l (Z.to_nat j) with
       | Some a => ret a
       | None => raise IndexError
       end
  else raise IndexError.

(* ===================================================================== *)
(** * Video ID extractor *)
(* ===================================================================== *)

(** The body of the [try] of [extract_video_id]. *)
Definition extract_video_id_try (url : string) : result string :=
  if PyStr.contains "v=" url then
    after <- py_index (PyStr.split "v=" url) 1 ;;
    py_index (PyStr.split "&" after) 0
  else if PyStr.contains "youtu.be/" url then
    after <- py_index (PyStr.split "youtu.be/" url) 1 ;;
    py_index (PyStr.split "?" after) 0
  else ret url.

(** [extract_video_id]: the bare [except] returns the input. *)
Definition extract_video_id (url : string) : string :=
  match extract_video_id_try url with
  | inr video_id => video_id
  | inl _ => url
  end.

(* ===================================================================== *)
(** * Python floats *)
(* ===================================================================== *)

Module PyFloat.

Definition prec : Z := 53.
Definition emax : Z := 1024.

(** A Python [float] is an IEEE 754 binary64 value. *)
Definition float : Type := spec_float.


Definition zero : float := S754_zero false.

(** [float(z)], correctly rounded. *)
Definition of_int (z : Z) : float := binary_normalize prec emax z 0 false.

(** [x + y] *)
Definition add (x y : float) : float := SFadd prec emax x y.


(** [int(x)]: truncation towards zero; NaN and the infinities raise. *)
Definition to_int (x : float) : result Z :=
  match x with
  | S754_nan => raise ValueError
  | S754_infinity _ => raise OverflowError
  | S754_zero _ => ret 0%Z
  | S754_finite s m e =>
      let magnitude := Z.shiftl (Zpos m) e in
      ret (if s then (- magnitude)%Z else magnitude)
  end.

(** [round(x, 1)]: the exact value is rounded to a whole number of
    tenths, ties to even, and that decimal is converted back to the
    nearest float.  Values with [0 <= e] are integers already. *)
Definition round1 (x : float) : float :=
  match x with
  | S754_finite s m (Zneg k) =>
      let scaled := (Zpos m * 10)%Z in
      let q := Z.shiftr scaled (Zpos k) in
      let r := (scaled - Z.shiftl q (Zpos k))%Z in
      let half := Z.shiftl 1 (Zpos k - 1) in
      let tenths :=
        if ((half <? r) || ((r =? half) && Z.odd q))%Z then (q + 1)%Z else q in
      match tenths with
      | Zpos t => SFdiv prec emax (S754_finite s t 0) (S754_finite false 10 0)
      | _ => S754_zero s
      end
  | _ => x
  end.

End PyFloat.

Abbreviation float := PyFloat.float.

(** A Python number: the default duration [0] is an [int], the values of
    the caption service are [float]s. *)
Inductive number : Type :=
| Int (z : Z)
| Float (f : float).

(** [x + n] for a float [x]. *)
Definition add_number (x : float) (n : number) : float :=
  match n with
  | Int z => PyFloat.add x (PyFloat.of_int z)
  | Float d => PyFloat.add x d
  end.

(** [round(n, 1)]: an [int] is returned unchanged. *)
Definition round_number (n : number) : number :=
  match n with
  | Int z => Int z
  | Float d => Float (PyFloat.round1 d)
  end.

(** [str(e)] *)
Definition exn_str (e : exn) : string :=
  match e with
  | IndexError => "list index out of range"
  | KeyError key => ("'" ++ key ++ "'")%string
  | ValueError => "cannot convert float NaN to integer"
  | OverflowError => "cannot convert float infinity to integer"
  | ServiceError message => message
  end.

(** [format_time] *)
Definition format_time (seconds : float) : result string :=
  total <- PyFloat.to_int seconds ;;
  let minutes := (total / 60)%Z in
  let seconds := (total mod 60)%Z in
  let hours := (minutes / 60)%Z in
  let minutes := (minutes mod 60)%Z in
  ret (PyStr.format_02d hours ++ ":" ++ PyStr.format_02d minutes
       ++ ":" ++ PyStr.format_02d seconds)%string.

(* ===================================================================== *)
(** * The caption service boundary *)
(* ===================================================================== *)

(** One raw caption entry, a dictionary with the keys ['start'],
    ['duration'] and ['text']; [None] is an absent key. *)
Record entry : Type := {
  e_start : option float;
  e_duration : option float;
  e_text : option string
}.

(** The object returned by [translate]: only [fetch] is called on it. *)
Record translated : Type := {
  tr_fetch : result (list entry)
}.

(** One caption track of the service, with the outcome of the calls the
    program makes on it. *)
Record transcript : Type := {
  t_language : string;
  t_language_code : string;
  t_is_generated : bool;
  t_fetch : result (list entry);
  t_translate : string -> result translated
}.

(** One element of [st.session_state.available_transcripts]. *)
Record available : Type := {
  lang : string;
  a_language_name : string;
  is_generated : bool;
  a_transcript : transcript
}.

(** The calls made on the caption service, tagged with the selected index
    they were made for: [fetch()] on the track, [translate(target)] on the
    track, [fetch()] on the translated track. *)
Inductive event : Type :=
| Fetch (selected_index : Z)
| Translate (selected_index : Z) (target : string)
| FetchTranslated (selected_index : Z).

(* ===================================================================== *)
(** * Transcript normaliser *)
(* ===================================================================== *)

Record row : Type := {
  video_id : string;
  start_time_seconds : float;
  end_time_seconds : float;
  start_time : float;
  end_time : float;
  timestamp : string;
  end_timestamp : string;
  duration : number;
  text : string;
  youtube_link : string;
  language : string;
  language_name : string;
  caption_type : string;
  segment_number : Z
}.

(** [entry[key]] *)
Definition getitem {A} (key : string) (field : option A) : result A :=
  match field with
  | Some a => ret a
  | None => raise (KeyError key)
  end.

(** The body of the [for i, entry in enumerate(transcript)] loop: the row
    built for [entry] at position [i]. *)
Definition make_row (vid : string) (selected : available) (i : nat) (e : entry)
  : result row :=
  start <- getitem "start" (e_start e) ;;
  let dur := match e_duration e with
             | Some d => Float d
             | None => Int 0
             end in
  let end_ := add_number start dur in
  raw_text <- getitem "text" (e_text e) ;;
  let txt := PyStr.strip raw_text in
  stamp <- format_time start ;;
  end_stamp <- format_time end_ ;;
  start_second <- PyFloat.to_int start ;;
  ret {| video_id := vid;
         start_time_seconds := start;
         end_time_seconds := end_;
         start_time := PyFloat.round1 start;
         end_time := PyFloat.round1 end_;
         timestamp := stamp;
         end_timestamp := end_stamp;
         duration := round_number dur;
         text := txt;
         youtube_link := ("https://www.youtube.com/watch?v=" ++ vid
                          ++ "&t=" ++ PyStr.str_int start_second)%string;
         language := lang selected;
         language_name := a_language_name selected;
         caption_type := if is_generated selected then "Auto-generated" else "Manual";
         segment_number := Z.of_nat i + 1 |}.

(** The [enumerate] loop: rows are appended to [transcript_data] one by
    one; an exception stops the loop. *)
Fixpoint process_entries (vid : string) (selected : available)
    (entries : list entry) (i : nat) (transcript_data : list row)
  : result (list row) :=
  match entries with
  | [] => ret transcript_data
  | e :: rest =>
      r <- make_row vid selected i e ;;
      process_entries vid selected rest (S i) (transcript_data ++ [r])
  end.

(** What the fetch block of one loop iteration leaves behind: either the
    [continue] of the inner handler was taken, or control reaches
    [if not transcript] with [transcript] bound to [None] or to a list. *)
Inductive fetched : Type :=
| Continue
| Transcript (t : option (list entry)).

Definition signature : string := "no element found".

(** Lines 122-143: the direct fetch and the fallback through the English
    translation, with the service calls that were made. *)
Definition fetch_transcript (selected_index : Z) (selected : available)
  : fetched * list event :=
  match t_fetch (a_transcript selected) with
  | inr entries => (Transcript (Some entries), [Fetch selected_index])
  | inl e =>
      if PyStr.contains signature (PyStr.lower (exn_str e)) then
        if negb (String.eqb (lang selected) "en") then
          match t_translate (a_transcript selected) "en" with
          | inl _ =>
              (Continue, [Fetch selected_index; Translate selected_index "en"])
          | inr tr =>
              match tr_fetch tr with
              | inl _ =>
                  (Continue, [Fetch selected_index; Translate selected_index "en";
                              FetchTranslated selected_index])
              | inr entries =>
                  (Transcript (Some entries),
                   [Fetch selected_index; Translate selected_index "en";
                    FetchTranslated selected_index])
              end
          end
        else (Continue, [Fetch selected_index])
      else (Transcript None, [Fetch selected_index])
  end.

(** [not transcript] *)
Definition falsy (t : option (list entry)) : bool :=
  match t with
  | None | Some [] => true
  | Some (_ :: _) => false
  end.

(** The [for selected_index in selected_transcripts] loop, with the rows
    collected so far.  The result is the exception that left the loop, or
    the final [transcript_data]; the service calls are logged in both
    cases. *)
Fixpoint extract_loop (vid : string) (available_transcripts : list available)
    (selected_transcripts : list Z) (transcript_data : list row)
  : result (list row) * list event :=
  match selected_transcripts with
  | [] => (ret transcript_data, [])
  | selected_index :: rest =>
      match py_index available_transcripts selected_index with
      | inl e => (raise e, [])
      | inr selected =>
          let (got, calls) := fetch_transcript selected_index selected in
          match got with
          | Continue =>
              let (r, later) := extract_loop vid available_transcripts rest transcript_data in
              (r, calls ++ later)
          | Transcript t =>
              if falsy t then
                let (r, later) := extract_loop vid available_transcripts rest transcript_data in
                (r, calls ++ later)
              else
                match process_entries vid selected
                        (match t with Some entries => entries | None => [] end)
                        0 transcript_data with
                | inl e => (raise e, calls)
                | inr transcript_data' =>
                    let (r, later) :=
                      extract_loop vid available_transcripts rest transcript_data' in
                    (r, calls ++ later)
                end
          end
      end
  end.

(** [extract_transcript]: the outer handler turns any exception into the
    empty list. *)
Definition extract_transcript (vid : string) (available_transcripts : list available)
    (selected_transcripts : list Z) : list row :=
  match fst (extract_loop vid available_transcripts selected_transcripts []) with
  | inr transcript_data => transcript_data
  | inl _ => []
  end.

(** The service calls made by [extract_transcript]. *)
Definition extract_calls (vid : string) (available_transcripts : list available)
    (selected_transcripts : list Z) : list event :=
  snd (extract_loop vid available_transcripts selected_transcripts []).

(* ===================================================================== *)
(** * Caption catalogue lookup *)
(* ===================================================================== *)

Record caption_info : Type := {
  ci_language : string;
  ci_language_code : string;
  ci_type : string
}.

Definition caption_info_of (t : transcript) : caption_info :=
  {| ci_language := t_language t;
     ci_language_code := t_language_code t;
     ci_type := if t_is_generated t then "Auto-generated" else "Manual" |}.

(** The [for transcript in transcript_list] loop of
    [check_available_captions], on the pair of lists it fills. *)
Fixpoint sort_captions (transcript_list : list transcript)
    (manual_captions auto_captions : list caption_info)
  : list caption_info * list caption_info :=
  match transcript_list with
  | [] => (manual_captions, auto_captions)
  | t :: rest =>
      if t_is_generated t
      then sort_captions rest manual_captions (auto_captions ++ [caption_info_of t])
      else sort_captions rest (manual_captions ++ [caption_info_of t]) auto_captions
  end.

(** [check_available_captions]; [list_transcripts] is the call
    [YouTubeTranscriptApi.list_transcripts]. *)
Definition check_available_captions
    (list_transcripts : string -> result (list transcript)) (vid : string)
  : list caption_info * list caption_info :=
  match list_transcripts vid with
  | inr transcript_list => sort_captions transcript_list [] []
  | inl _ => ([], [])
  end.

(* ===================================================================== *)
(** * Export formatter *)
(* ===================================================================== *)

(** The iteration order of a Python [set] of strings built from a list:
    some enumeration without repetition of the members of the list.  Which
    one is not fixed by the language (string hashes are salted). *)
Record set_order : Type := {
  elements : list string -> list string;
  elements_nodup : forall l, NoDup (elements l);
  elements_in : forall l x, In x (elements l) <-> In x l
}.

(** One cell of a data frame. *)
Inductive cell : Type :=
| CStr (s : string)
| CFloat (f : float)
| CNumber (n : number)
| CInt (z : Z).

(** A data frame: its column names and its records. *)
Record table : Type := {
  columns : list string;
  records : list (list cell)
}.

(** The arguments of one [st.download_button] call that reach the browser;
    [data] is the frame that [to_csv] serialises. *)
Record download : Type := {
  data : table;
  file_name : string;
  mime : string;
  key : string
}.

(** The calls of [save_transcript_options] on the user interface. *)
Inductive ui_call : Type :=
| Warning (message : string)
| DownloadButton (d : download).

Definition full_columns : list string :=
  ["video_id"; "timestamp"; "end_timestamp"; "start_time"; "end_time";
   "duration"; "text"; "youtube_link"; "language"; "language_name";
   "caption_type"; "segment_number"].

Definition full_record (item : row) : list cell :=
  [CStr (video_id item); CStr (timestamp item); CStr (end_timestamp item);
   CFloat (start_time item); CFloat (end_time item); CNumber (duration item);
   CStr (text item); CStr (youtube_link item); CStr (language item);
   CStr (language_name item); CStr (caption_type item);
   CInt (segment_number item)].

Definition simple_record (item : row) : list cell :=
  [CStr (timestamp item); CStr (language_name item); CStr (text item);
   CStr (youtube_link item); CStr (video_id item)].

Definition timeline_record (item : row) : list cell :=
  [CStr (timestamp item); CStr (language_name item); CStr (text item)].

(** [video_title.replace(' ', '_')[:50]] *)
Definition video_title_clean (video_title : string) : string :=
  PyStr.take 50 (PyStr.replace_char " " "_" video_title).

(** [list(set([item['language'] for item in transcript_data]))] *)
Definition languages (order : set_order) (transcript_data : list row) : list string :=
  elements order (map language transcript_data).

(** ["_".join(languages) if len(languages) <= 3 else f"{len(languages)}languages"] *)
Definition language_str (order : set_order) (transcript_data : list row) : string :=
  let langs := languages order transcript_data in
  if (List.length langs <=? 3)%nat then PyStr.join "_" langs
  else (PyStr.str_nat (List.length langs) ++ "languages")%string.

(** The file name of one variant. *)
Definition filename (prefix : string) (order : set_order) (transcript_data : list row)
    (video_title stamp : string) : string :=
  (prefix ++ "_" ++ language_str order transcript_data ++ "_"
   ++ video_title_clean video_title ++ "_" ++ stamp ++ ".csv")%string.

(** [save_transcript_options].  [stamps] are the three readings of
    [datetime.now().strftime("%Y%m%d_%H%M%S")], in call order.  The Python
    function returns [None] on every path; what it does is the list of
    calls on the user interface. *)
Definition save_transcript_options (order : set_order) (transcript_data : list row)
    (video_title : string) (stamps : string * string * string) : list ui_call :=
  match transcript_data with
  | [] => [Warning "No transcript data to save."]
  | _ :: _ =>
      let '(stamp1, stamp2, stamp3) := stamps in
      [DownloadButton
         {| data := {| columns := full_columns;
                       records := map full_record transcript_data |};
            file_name := filename "full_transcript" order transcript_data video_title stamp1;
            mime := "text/csv";
            key := "download_full_csv" |};
       DownloadButton
         {| data := {| columns := ["timestamp"; "language"; "text"; "youtube_link"; "video_id"];
                       records := map simple_record transcript_data |};
            file_name := filename "simple_transcript" order transcript_data video_title stamp2;
            mime := "text/csv";
            key := "download_simple_csv" |};
       DownloadButton
         {| data := {| columns := ["time"; "language"; "text"];
                       records := map timeline_record transcript_data |};
            file_name := filename "timeline" order transcript_data video_title stamp3;
            mime := "text/csv";
            key := "download_timeline_csv" |}]
  end.

(** The payloads offered for download. *)
Fixpoint payloads (calls : list ui_call) : list download :=
  match calls with
  | [] => []
  | DownloadButton d :: rest => d :: payloads rest
  | Warning _ :: rest => payloads rest
  end.

(* ===================================================================== *)
(** * The page script *)
(* ===================================================================== *)

(** [st.session_state]: the three values that survive a run of the script. *)
Record session : Type := {
  s_available_transcripts : list available;
  s_extracted_data : list row;
  s_current_video_id : string
}.

(** What the widgets return in one run: the text input, the two buttons
    and the multiselect.  A widget that the run does not reach is not
    read. *)
Record controls : Type := {
  video_url : string;
  check_captions : bool;
  selected_options : list Z;
  extract_button : bool
}.

(** [bool(l)] for a list. *)
Definition truthy {A} (l : list A) : bool :=
  match l with
  | [] => false
  | _ :: _ => true
  end.

(** [bool(s)] for a string. *)
Definition truthy_str (s : string) : bool :=
  match s with
  | EmptyString => false
  | String _ _ => true
  end.

(** [max(l)] for a list of floats: the first item is kept until an item
    compares greater; the empty list raises [ValueError]. *)
Fixpoint max_from (best : float) (l : list float) : float :=
  match l with
  | [] => best
  | x :: rest => max_from (if SFltb best x then x else best) rest
  end.

Definition py_max (l : list float) : result float :=
  match l with
  | [] => raise ValueError
  | x :: rest => ret (max_from x rest)
  end.

(** The element appended to [available_transcripts] for a track of the
    service (lines 382-387). *)
Definition available_of (transcript_info : transcript) : available :=
  {| lang := t_language_code transcript_info;
     a_language_name := t_language transcript_info;
     is_generated := t_is_generated transcript_info;
     a_transcript := transcript_info |}.

(** Lines 360-363: a new video id clears the catalogue and the rows. *)
Definition reset_if_changed (vid : string) (s : session) : session :=
  if String.eqb (s_current_video_id s) vid then s
  else {| s_available_transcripts := [];
          s_extracted_data := [];
          s_current_video_id := vid |}.

(** Lines 369-403, the button "Check Available Captions".  The service is
    asked twice; [first_listing] and [second_listing] are its answers to
    the first and to the second call. *)
Definition check_captions_clicked
    (first_listing second_listing : string -> result (list transcript))
    (vid : string) (s : session) : session :=
  let (manual_caps, auto_caps) := check_available_captions first_listing vid in
  if truthy manual_caps || truthy auto_caps then
    match second_listing vid with
    | inr transcript_list =>
        {| s_available_transcripts := map available_of transcript_list;
           s_extracted_data := s_extracted_data s;
           s_current_video_id := s_current_video_id s |}
    | inl _ => s
    end
  else s.

(** Lines 430-438, the button "Extract Selected Transcripts": the rows are
    stored only when there are some. *)
Definition extract_clicked (vid : string) (options : list Z) (s : session) : session :=
  let transcript_data := extract_transcript vid (s_available_transcripts s) options in
  if truthy transcript_data
  then {| s_available_transcripts := s_available_transcripts s;
          s_extracted_data := transcript_data;
          s_current_video_id := s_current_video_id s |}
  else s.

(** Lines 441-465: the summary of the extracted rows and the downloads.
    [max] and [format_time] can raise; nothing catches that here. *)
Definition show_extracted (order : set_order) (stamps : string * string * string)
    (vid : string) (s : session) : result (list ui_call) :=
  if truthy (s_extracted_data s) then
    total_duration <- py_max (map end_time_seconds (s_extracted_data s)) ;;
    shown_duration <- format_time total_duration ;;
    ret (save_transcript_options order (s_extracted_data s)
           ("video_" ++ vid)%string stamps)
  else ret [].

(** One run of [main]: the session after the run, and the calls of
    [save_transcript_options] on the page, or the exception that ended the
    run.  The texts, tables and boxes that the run writes are left out. *)
Definition main (order : set_order) (stamps : string * string * string)
    (first_listing second_listing : string -> result (list transcript))
    (c : controls) (s : session) : session * result (list ui_call) :=
  if truthy_str (video_url c) then
    let vid := extract_video_id (video_url c) in
    let s1 := reset_if_changed vid s in
    let s2 := if check_captions c
              then check_captions_clicked first_listing second_listing vid s1
              else s1 in
    let s3 := if truthy (s_available_transcripts s2) then
                if truthy (selected_options c) then
                  if extract_button c
                  then extract_clicked vid (selected_options c) s2
                  else s2
                else s2
              else s2 in
    (s3, show_extracted order stamps vid s3)
  else (s, ret []).

(** The session at the start of a browser session (lines 13-18). *)
Definition initial_session : session :=
  {| s_available_transcripts := [];
     s_extracted_data := [];
     s_current_video_id := "" |}.

(* ===================================================================== *)
(** * Definitions used to state the properties *)
(* ===================================================================== *)

(** The text of [url] between the first [opening] and the next [closing]
    (or the end of [url]). *)
Definition video_id_between (opening closing url : string) : string :=
  match PyStr.after_first opening url with
  | Some rest => PyStr.upto_first closing rest
  | None => url
  end.

(** The rows of one track: [make_row] on each entry in turn, positions
    counted from [i]. *)
Fixpoint rows_of (vid : string) (selected : available) (entries : list entry)
    (i : nat) : result (list row) :=
  match entries with
  | [] => ret []
  | e :: rest =>
      r <- make_row vid selected i e ;;
      rs <- rows_of vid selected rest (S i) ;;
      ret (r :: rs)
  end.

(** The entries that the loop normalises for a selected track: those of
    the fetch that succeeded, none when the track is skipped. *)
Definition track_entries (selected_index : Z) (selected : available) : list entry :=
  match fst (fetch_transcript selected_index selected) with
  | Transcript (Some entries) => entries
  | _ => []
  end.

(** The block of rows of one selected index ([[]] when an exception is
    raised for it). *)
Definition track_rows (vid : string) (available_transcripts : list available)
    (selected_index : Z) : list row :=
  match (selected <- py_index available_transcripts selected_index ;;
         rows_of vid selected (track_entries selected_index selected) 0) with
  | inr block => block
  | inl _ => []
  end.

(** [1, 2, ..., n] *)
Definition one_to (n : nat) : list Z := map Z.of_nat (seq 1 n).



Definition is_translate (c : event) : bool :=
  match c with Translate _ _ => true | _ => false end.

Definition is_fetch_translated (c : event) : bool :=
  match c with FetchTranslated _ => true | _ => false end.

(** The number of fallback attempts among the service calls. *)
Definition fallback_attempts (calls : list event) : nat :=
  List.length (filter is_translate calls).

(** The number of fetches of a translated track. *)
Definition fallback_fetches (calls : list event) : nat :=
  List.length (filter is_fetch_translated calls).

(** [all(c.isspace() for c in s)] *)
Fixpoint all_space (s : string) : bool :=
  match s with
  | EmptyString => true
  | String c s' => PyStr.isspace c && all_space s'
  end.

(** The first and the last character of [s] are not white space. *)
Definition trimmed (s : string) : bool :=
  match s with
  | EmptyString => true
  | String c _ =>
      negb (PyStr.isspace c)
      && match get (String.length s - 1) s with
         | Some d => negb (PyStr.isspace d)
         | None => true
         end
  end.


(** The number of binary digits of a mantissa. *)
Definition dg (m : positive) : Z := Zpos (digits2_pos m).


(** A set order: each member at the place of its last occurrence. *)
Definition last_occurrence_order : set_order :=
  {| elements := fun l => nodup string_dec l;
     elements_nodup := fun l => NoDup_nodup string_dec l;
     elements_in := fun l x => nodup_In string_dec l x |}.

(** [int()] of the end of the row does not raise. *)
Definition finite_end (r : row) : bool :=
  match PyFloat.to_int (end_time_seconds r) with
  | inr _ => true
  | inl _ => false
  end.

(** The rows of the session belong to its current video and have an end
    that [int()] accepts. *)
Definition session_ok (s : session) : bool :=
  forallb (fun r => String.eqb (video_id r) (s_current_video_id s) && finite_end r)
    (s_extracted_data s).

Definition is_fetch (c : event) : bool :=
  match c with Fetch _ => true | _ => false end.


(** Every record of the frame has one cell per column. *)
Definition rectangular (t : table) : bool :=
  forallb (fun record => Nat.eqb (List.length record) (List.length (columns t)))
    (records t).

(** The cell of [record] in the column [name]. *)
Fixpoint cell_of (names : list string) (record : list cell) (name : string)
  : option cell :=
  match names, record with
  | n :: names', c :: record' =>
      if String.eqb n name then Some c else cell_of names' record' name
  | _, _ => None
  end.

(** The fallback is due for a track: its own fetch raised with the
    signature, and its language code is not ["en"]. *)
Definition fallback_due (selected : available) : bool :=
  match t_fetch (a_transcript selected) with
  | inl e =>
      PyStr.contains signature (PyStr.lower (exn_str e))
      && negb (String.eqb (lang selected) "en")
  | inr _ => false
  end.

(** The calls that may be made for one selected index, in their order: the
    fetch of the track; after it, only when the fallback is due, the
    translation to English; after that, only when the translation returned,
    the fetch of the translated track. *)
Definition allowed_calls (available_transcripts : list available) (i : Z)
  : list event :=
  match py_index available_transcripts i with
  | inl _ => []
  | inr selected =>
      Fetch i
      :: (if fallback_due selected then
            Translate i "en"
            :: match t_translate (a_transcript selected) "en" with
               | inr _ => [FetchTranslated i]
               | inl _ => []
               end
          else [])
  end.

(** A call of the service is justified by the selection and the catalogue:
    it is made for a selected index; a translation is made to English, for
    a track for which the fallback is due; a translated track is fetched
    for a track for which the fallback is due and whose translation to
    English returned. *)
Definition call_justified (available_transcripts : list available)
    (selected_transcripts : list Z) (c : event) : Prop :=
  match c with
  | Fetch i =>
      In i selected_transcripts
      /\ exists selected, py_index available_transcripts i = inr selected
  | Translate i target =>
      target = "en"
      /\ In i selected_transcripts
      /\ exists selected,
          py_index available_transcripts i = inr selected
          /\ fallback_due selected = true
  | FetchTranslated i =>
      In i selected_transcripts
      /\ exists selected tr,
          py_index available_transcripts i = inr selected
          /\ fallback_due selected = true
          /\ t_translate (a_transcript selected) "en" = inr tr
  end.

(** An entry that [make_row] accepts: it has a ['start'] and a ['text'],
    and [int()] accepts its start and its end. *)
Definition entry_complete (e : entry) : bool :=
  match e_start e, e_text e with
  | Some start, Some _ =>
      match PyFloat.to_int start,
            PyFloat.to_int
              (add_number start
                 (match e_duration e with Some d => Float d | None => Int 0 end))
      with
      | inr _, inr _ => true
      | _, _ => false
      end
  | _, _ => false
  end.

(** The sessions that runs of the script produce, starting from the
    initial one, whatever the widgets and the service return. *)
Inductive reachable : session -> Prop :=
| reachable_initial : reachable initial_session
| reachable_run order stamps first_listing second_listing c s :
    reachable s ->
    reachable (fst (main order stamps first_listing second_listing c s)).

(* ===================================================================== *)
(** * Example data *)
(* ===================================================================== *)

Module Example.

(** The float [m * 2^e]. *)
Definition seconds (m e : Z) : float :=
  binary_normalize PyFloat.prec PyFloat.emax m e false.

Definition hello : entry :=
  {| e_start := Some (seconds 0 0);
     e_duration := Some (seconds 3 (-1));
     e_text := Some "  Hello " |}.

Definition world : entry :=
  {| e_start := Some (seconds 3 (-1));
     e_duration := None;
     e_text := Some "world" |}.

Definition hola : entry :=
  {| e_start := Some (seconds 5 (-1));
     e_duration := Some (seconds 1 (-2));
     e_text := Some "hola" |}.

Definition no_text : entry :=
  {| e_start := Some (seconds 1 0);
     e_duration := None;
     e_text := None |}.

Definition track (name code : string) (generated : bool)
    (direct : result (list entry)) (via_english : result translated) : available :=
  {| lang := code;
     a_language_name := name;
     is_generated := generated;
     a_transcript :=
       {| t_language := name;
          t_language_code := code;
          t_is_generated := generated;
          t_fetch := direct;
          t_translate := fun _ => via_english |} |}.

Definition not_translatable : result translated :=
  raise (ServiceError "The requested language is not translatable").

(** A manual English track that is fetched directly. *)
Definition en_manual : available :=
  track "English" "en" false (ret [hello; world]) not_translatable.

(** A generated Spanish track: the direct fetch fails with the signature,
    the fetch through the English translation returns one entry. *)
Definition es_auto : available :=
  track "Spanish (auto-generated)" "es" true
    (raise (ServiceError "no element found: line 1, column 0"))
    (ret {| tr_fetch := ret [hola] |}).

(** A track whose fetch fails with another message. *)
Definition fr_disabled : available :=
  track "French" "fr" false
    (raise (ServiceError "Subtitles are disabled for this video"))
    (ret {| tr_fetch := ret [hola] |}).

(** An English track whose fetch fails with the signature. *)
Definition en_empty : available :=
  track "English (auto-generated)" "en" true
    (raise (ServiceError "No element found: line 1, column 0"))
    (ret {| tr_fetch := ret [hola] |}).

(** A track with an entry that has no ['text']. *)
Definition de_malformed : available :=
  track "German" "de" false (ret [hello; no_text]) not_translatable.

Definition available_transcripts : list available :=
  [en_manual; es_auto; fr_disabled; en_empty; de_malformed].

(** The caption service of the catalogue lookup: one video with the
    English and the Spanish track, an error for any other video. *)
Definition list_transcripts (vid : string) : result (list transcript) :=
  if String.eqb vid "abc123"
  then ret [a_transcript es_auto; a_transcript en_manual; a_transcript en_empty]
  else raise (ServiceError "Could not retrieve a transcript for the video").

(** A row in the language [code]. *)
Definition row_in (code : string) : row :=
  {| video_id := "abc123";
     start_time_seconds := PyFloat.zero;
     end_time_seconds := PyFloat.zero;
     start_time := PyFloat.zero;
     end_time := PyFloat.zero;
     timestamp := "00:00:00";
     end_timestamp := "00:00:00";
     duration := Int 0;
     text := "text";
     youtube_link := "https://www.youtube.com/watch?v=abc123&t=0";
     language := code;
     language_name := code;
     caption_type := "Manual";
     segment_number := 1 |}.

End Example.

(* ===================================================================== *)
(** * Example runs of the page script *)
(* ===================================================================== *)

Module PageExample.

Definition stamps : string * string * string :=
  ("20240131_235959", "20240131_235959", "20240201_000000").

(** The user pastes a short link and asks for the catalogue. *)
Definition check_run : controls :=
  {| video_url := "https://youtu.be/abc123?t=5";
     check_captions := true;
     selected_options := [];
     extract_button := false |}.

(** The user selects the English and then the Spanish track of the
    catalogue and asks for the extraction. *)
Definition extract_run : controls :=
  {| video_url := "https://youtu.be/abc123?t=5";
     check_captions := false;
     selected_options := [1; 0]%Z;
     extract_button := true |}.

(** The user pastes the link of another video. *)
Definition other_video_run : controls :=
  {| video_url := "https://www.youtube.com/watch?v=xyz789";
     check_captions := false;
     selected_options := [0]%Z;
     extract_button := true |}.

Definition run (c : controls) (s : session) : session * result (list ui_call) :=
  main last_occurrence_order stamps Example.list_transcripts Example.list_transcripts
    c s.

Definition after_check : session := fst (run check_run initial_session).

Definition after_extract : session := fst (run extract_run after_check).

End PageExample.

(* ===================================================================== *)
(** * Properties of the string operations *)
(* ===================================================================== *)

Section StringFacts.

Import PyStr.
Local Open Scope string_scope.

Lemma startswith_nil_l s : startswith EmptyString s = true.
Proof. destruct s; reflexivity. Qed.

Lemma startswith_app p s : startswith p (p ++ s) = true.
Proof.
  induction p as [| c p IH]; cbn.
  - reflexivity.
  - rewrite Ascii.eqb_refl. exact IH.
Qed.

Lemma startswith_inv p s :
  startswith p s = true -> s = (p ++ drop (String.length p) s)%string.
Proof.
  revert s. induction p as [| a p IH]; intros s H.
  - destruct s; reflexivity.
  - destruct s as [| b s]; cbn in H; [discriminate|].
    destruct (Ascii.eqb_spec a b) as [-> | _]; [|discriminate].
    cbn. f_equal. apply IH. exact H.
Qed.

Lemma startswith_length p s :
  startswith p s = true -> String.length p <= String.length s.
Proof.
  revert s. induction p as [| a p IH]; intros s H; cbn; [lia|].
  destruct s as [| b s]; cbn in H; [discriminate|].
  destruct (Ascii.eqb a b); [|discriminate].
  cbn. apply IH in H. lia.
Qed.

Lemma contains_find sub s :
  contains sub s = match find sub s with Some _ => true | None => false end.
Proof.
  induction s as [| c s IH]; cbn.
  - destruct (startswith sub EmptyString); reflexivity.
  - destruct (startswith sub (String c s)); [reflexivity|].
    rewrite IH. destruct (find sub s); reflexivity.
Qed.

(** [find] returns the position of the first occurrence. *)
Lemma find_some sub s i :
  find sub s = Some i ->
  s = (take i s ++ sub ++ drop (i + String.length sub) s)%string
  /\ forall j, j < i -> startswith sub (drop j s) = false.
Proof.
  revert i. induction s as [| c s IH]; intros i H; cbn in H.
  - destruct (startswith sub EmptyString) eqn:Hp; [|discriminate].
    injection H as <-. split; [|intros j Hj; lia].
    apply startswith_inv in Hp. exact Hp.
  - destruct (startswith sub (String c s)) eqn:Hp.
    + injection H as <-. split; [|intros j Hj; lia].
      apply startswith_inv in Hp. exact Hp.
    + destruct (find sub s) as [k |] eqn:Hf; [|discriminate].
      injection H as <-. destruct (IH k eq_refl) as [Hs Hfirst].
      split.
      * cbn. f_equal. exact Hs.
      * intros [| j] Hj; cbn; [exact Hp | apply Hfirst; lia].
Qed.

Lemma find_none sub s j :
  find sub s = None -> startswith sub (drop j s) = false.
Proof.
  revert j. induction s as [| c s IH]; intros j H; cbn in H.
  - destruct (startswith sub EmptyString) eqn:Hp; [discriminate|].
    destruct j; exact Hp.
  - destruct (startswith sub (String c s)) eqn:Hp; [discriminate|].
    destruct (find sub s) eqn:Hf; [discriminate|].
    destruct j as [| j]; cbn; [exact Hp | apply IH; reflexivity].
Qed.

Lemma split_from_skip sep s k :
  split_from sep s k = split_from sep (drop k s) 0.
Proof.
  revert k. induction s as [| c s IH]; intros [| k]; try reflexivity.
  cbn [split_from drop]. apply IH.
Qed.

Lemma split_from_nonempty sep s k : split_from sep s k <> [].
Proof.
  revert k. induction s as [| c s IH]; intros k; cbn; [discriminate|].
  destruct k; [|apply IH].
  destruct (startswith sep (String c s)); [discriminate|].
  destruct (split_from sep s 0); discriminate.
Qed.

(** The recursive reading of [split]: cut at the first occurrence and
    split what follows it. *)
Lemma split_find sep s :
  sep <> EmptyString ->
  split sep s = match find sep s with
                | Some i => take i s :: split sep (drop (i + String.length sep) s)
                | None => [s]
                end.
Proof.
  intros Hsep. unfold split. induction s as [| c s IH].
  - cbn. destruct sep; [congruence | reflexivity].
  - cbn [split_from find].
    destruct (startswith sep (String c s)) eqn:Hp.
    + cbn [take Nat.add]. f_equal.
      rewrite split_from_skip. f_equal.
      destruct sep as [| a sep]; [congruence|].
      cbn. rewrite Nat.sub_0_r. reflexivity.
    + rewrite IH. destruct (find sep s) as [i |]; cbn; reflexivity.
Qed.

Lemma split_head sep s :
  sep <> EmptyString ->
  exists pieces, split sep s = upto_first sep s :: pieces.
Proof.
  intros Hsep. rewrite (split_find sep s Hsep). unfold upto_first.
  destruct (find sep s); eauto.
Qed.

Lemma split_second sep s rest :
  sep <> EmptyString ->
  after_first sep s = Some rest ->
  exists pieces, split sep s = upto_first sep s :: upto_first sep rest :: pieces.
Proof.
  intros Hsep Hrest. rewrite (split_find sep s Hsep).
  unfold after_first, upto_first in *.
  destruct (find sep s) as [i |]; [|discriminate].
  injection Hrest as <-.
  destruct (split_head sep (drop (i + String.length sep) s) Hsep) as [pieces Hp].
  rewrite Hp. eauto.
Qed.

Lemma py_index_0 {A} (a : A) l : py_index (a :: l) 0 = ret a.
Proof.
  unfold py_index. cbn [List.length].
  destruct (Z.ltb_spec 0 0); [lia|].
  destruct (Z.leb_spec 0 0); [|lia].
  destruct (Z.ltb_spec 0 (Z.of_nat (S (List.length l)))); [|lia].
  reflexivity.
Qed.

Lemma py_index_1 {A} (a b : A) l : py_index (a :: b :: l) 1 = ret b.
Proof.
  unfold py_index. cbn [List.length].
  destruct (Z.ltb_spec 1 0); [lia|].
  destruct (Z.leb_spec 0 1); [|lia].
  destruct (Z.ltb_spec 1 (Z.of_nat (S (S (List.length l))))); [|lia].
  reflexivity.
Qed.

(** The two-step cut of [extract_video_id]. *)
Lemma cut_after opening closing url rest :
  opening <> EmptyString -> closing <> EmptyString ->
  after_first opening url = Some rest ->
  (after <- py_index (split opening url) 1 ;; py_index (split closing after) 0)
  = ret (upto_first closing (upto_first opening rest)).
Proof.
  intros Ho Hc Hrest.
  destruct (split_second opening url rest Ho Hrest) as [pieces ->].
  rewrite py_index_1. cbn [bind ret].
  destruct (split_head closing (upto_first opening rest) Hc) as [pieces' ->].
  apply py_index_0.
Qed.

Lemma contains_after_first sub s :
  contains sub s = true -> exists rest, after_first sub s = Some rest.
Proof.
  rewrite contains_find. unfold after_first.
  destruct (find sub s); [eauto | discriminate].
Qed.


Lemma startswith_take p s n :
  startswith p s = true -> String.length p <= n -> startswith p (take n s) = true.
Proof.
  revert s n. induction p as [| a p IH]; intros s n H Hn.
  - apply startswith_nil_l.
  - destruct s as [| b s]; cbn in H; [discriminate|].
    destruct n as [| n]; cbn in Hn; [lia|].
    cbn. destruct (Ascii.eqb a b); [|discriminate].
    apply IH; [exact H | lia].
Qed.

Lemma startswith_of_take p s n :
  startswith p (take n s) = true -> startswith p s = true.
Proof.
  revert s n. induction p as [| a p IH]; intros s n H.
  - apply startswith_nil_l.
  - destruct s as [| b s]; destruct n as [| n]; cbn in H; try discriminate.
    cbn. destruct (Ascii.eqb a b); [|discriminate].
    apply (IH s n). exact H.
Qed.

(** An occurrence that ends within the first [n] characters is found in
    them, at the same place. *)
Lemma find_take sub s i n :
  find sub s = Some i -> i + String.length sub <= n ->
  find sub (take n s) = Some i.
Proof.
  revert i n. induction s as [| c s IH]; intros i n H Hn; cbn in H.
  - destruct (startswith sub EmptyString) eqn:Hp; [|discriminate].
    injection H as <-. destruct n; cbn; rewrite Hp; reflexivity.
  - destruct (startswith sub (String c s)) eqn:Hp.
    + injection H as <-.
      pose proof (startswith_take sub (String c s) n Hp ltac:(lia)) as Ht.
      destruct n as [| n]; cbn [take find] in *; rewrite Ht; reflexivity.
    + destruct (find sub s) as [k |] eqn:Hf; [|discriminate].
      injection H as <-.
      destruct n as [| n]; [lia|].
      cbn [take find].
      destruct (startswith sub (String c (take n s))) eqn:Ht.
      * apply (startswith_of_take sub (String c s) (S n)) in Ht. congruence.
      * rewrite (IH k n eq_refl) by lia. reflexivity.
Qed.

Lemma take_take i j s : i <= j -> take i (take j s) = take i s.
Proof.
  revert j s. induction i as [| i IH]; intros j s Hij.
  - destruct (take j s); reflexivity.
  - destruct j as [| j]; [lia|]. destruct s as [| c s]; [reflexivity|].
    cbn. f_equal. apply IH. lia.
Qed.

Lemma drop_drop n j s : drop n (drop j s) = drop (j + n) s.
Proof.
  revert s. induction j as [| j IH]; intros s; [reflexivity|].
  destruct s as [| c s]; cbn.
  - destruct n; reflexivity.
  - apply IH.
Qed.

Lemma find_startswith sub s i :
  find sub s = Some i -> startswith sub (drop i s) = true.
Proof.
  revert i. induction s as [| c s IH]; intros i H; cbn in H.
  - destruct (startswith sub EmptyString) eqn:Hp; [|discriminate].
    injection H as <-. exact Hp.
  - destruct (startswith sub (String c s)) eqn:Hp.
    + injection H as <-. exact Hp.
    + destruct (find sub s) as [k |] eqn:Hf; [|discriminate].
      injection H as <-. cbn. apply IH. reflexivity.
Qed.

(** No occurrence of the character [c] begins inside [m]. *)
Lemma startswith_inside c m t k :
  contains (String c EmptyString) m = false ->
  k < String.length m ->
  startswith (String c EmptyString) (drop k (m ++ t)) = false.
Proof.
  revert k. induction m as [| x m IH]; intros k Hc Hk; cbn in Hk; [lia|].
  cbn in Hc. destruct (Ascii.eqb c x) eqn:Hcx; [discriminate|].
  destruct k as [| k]; cbn.
  - rewrite Hcx. reflexivity.
  - apply IH; [exact Hc | lia].
Qed.

(** Cutting at the next [m] first does not change the cut at the
    character [c] when [m] does not occur before [c]. *)
Lemma upto_first_twice c m rest :
  contains (String c EmptyString) m = false ->
  contains m (upto_first (String c EmptyString) rest) = false ->
  upto_first (String c EmptyString) (upto_first m rest)
  = upto_first (String c EmptyString) rest.
Proof.
  intros Hcm Hno.
  unfold upto_first at 2.
  destruct (find m rest) as [j |] eqn:Hj; [|reflexivity].
  unfold upto_first in *.
  destruct (find (String c EmptyString) rest) as [i |] eqn:Hi.
  - assert (Hij : i < j).
    { destruct (Nat.lt_ge_cases i j) as [|Hge]; [assumption|]. exfalso.
      destruct (Nat.le_gt_cases (j + String.length m) i) as [Hin | Hout].
      - rewrite contains_find, (find_take _ _ j i Hj Hin) in Hno. discriminate.
      - pose proof (find_startswith _ _ _ Hi) as Hpi.
        pose proof (find_startswith _ _ _ Hj) as Hpj.
        apply startswith_inv in Hpj.
        replace i with (j + (i - j)) in Hpi by lia.
        rewrite <- drop_drop, Hpj in Hpi.
        rewrite startswith_inside in Hpi; [discriminate | exact Hcm | lia]. }
    rewrite (find_take _ _ i j Hi) by (cbn; lia).
    apply take_take. lia.
  - rewrite contains_find, Hj in Hno. discriminate.
Qed.

End StringFacts.

(* ===================================================================== *)
(** * Video ID extractor: properties *)
(* ===================================================================== *)

Section VideoId.

Import PyStr.
Local Open Scope string_scope.

Lemma extract_video_id_try_v url rest :
  after_first "v=" url = Some rest ->
  extract_video_id_try url = ret (upto_first "&" (upto_first "v=" rest)).
Proof.
  intros Hrest. unfold extract_video_id_try.
  assert (Hc : contains "v=" url = true).
  { rewrite contains_find. unfold after_first in Hrest.
    destruct (find "v=" url); [reflexivity | discriminate]. }
  rewrite Hc. apply cut_after; [discriminate | discriminate | exact Hrest].
Qed.

Lemma extract_video_id_try_short url rest :
  contains "v=" url = false ->
  after_first "youtu.be/" url = Some rest ->
  extract_video_id_try url = ret (upto_first "?" (upto_first "youtu.be/" rest)).
Proof.
  intros Hv Hrest. unfold extract_video_id_try. rewrite Hv.
  assert (Hc : contains "youtu.be/" url = true).
  { rewrite contains_find. unfold after_first in Hrest.
    destruct (find "youtu.be/" url); [reflexivity | discriminate]. }
  rewrite Hc. apply cut_after; [discriminate | discriminate | exact Hrest].
Qed.

(** The [try] block of [extract_video_id] never raises. *)
Lemma extract_video_id_try_total url :
  exists video_id, extract_video_id_try url = ret video_id.
Proof.
  destruct (contains "v=" url) eqn:Hv.
  - destruct (contains_after_first _ _ Hv) as [rest Hrest].
    rewrite (extract_video_id_try_v url rest Hrest). eauto.
  - destruct (contains "youtu.be/" url) eqn:Hs.
    + destruct (contains_after_first _ _ Hs) as [rest Hrest].
      rewrite (extract_video_id_try_short url rest Hv Hrest). eauto.
    + unfold extract_video_id_try. rewrite Hv, Hs. eauto.
Qed.

(** C5, as stated, fails: with a second ["v="] before the next ["&"] the
    program stops at that second marker. *)
Lemma C5_counterexample :
  contains "v=" "v=av=b" = true
  /\ extract_video_id "v=av=b" = "a"
  /\ video_id_between "v=" "&" "v=av=b" = "av=b"
  /\ extract_video_id "v=av=b" <> video_id_between "v=" "&" "v=av=b".
Proof. repeat split; try reflexivity. discriminate. Qed.

(** C5 (amended): for every input that contains ["v="], the result of
    [extract_video_id] is the text after the first ["v="] cut at the next
    ["v="] and then at the first ["&"], that is the text up to the next
    ["&"] or ["v="], whichever comes first, or up to the end of the string.
    When no further ["v="] comes before the next ["&"] this is the text
    between the first ["v="] and the next ["&"]. *)
Theorem C5_video_id_of_v_parameter url :
  contains "v=" url = true ->
  exists rest,
    after_first "v=" url = Some rest
    /\ extract_video_id url = upto_first "&" (upto_first "v=" rest)
    /\ (contains "v=" (upto_first "&" rest) = false ->
        extract_video_id url = video_id_between "v=" "&" url).
Proof.
  intros Hc. destruct (contains_after_first _ _ Hc) as [rest Hrest].
  exists rest. split; [exact Hrest|].
  assert (Hid : extract_video_id url = upto_first "&" (upto_first "v=" rest)).
  { unfold extract_video_id.
    rewrite (extract_video_id_try_v url rest Hrest). reflexivity. }
  split; [exact Hid|].
  intros Hno. rewrite Hid. unfold video_id_between. rewrite Hrest.
  apply upto_first_twice; [reflexivity | exact Hno].
Qed.

Lemma C5_witness :
  contains "v=" "https://www.youtube.com/watch?v=abc123&t=5" = true
  /\ extract_video_id "https://www.youtube.com/watch?v=abc123&t=5" = "abc123".
Proof.
  split; [reflexivity|].
  destruct (C5_video_id_of_v_parameter
              "https://www.youtube.com/watch?v=abc123&t=5" eq_refl)
    as [rest [Hrest [Hid _]]].
  rewrite Hid. cbv in Hrest. injection Hrest as <-. reflexivity.
Defined.

(** C6, as stated, fails in the same way: a second ["youtu.be/"] before
    the next ["?"] ends the result. *)
Lemma C6_counterexample :
  contains "v=" "youtu.be/ayoutu.be/b" = false
  /\ contains "youtu.be/" "youtu.be/ayoutu.be/b" = true
  /\ extract_video_id "youtu.be/ayoutu.be/b" = "a"
  /\ video_id_between "youtu.be/" "?" "youtu.be/ayoutu.be/b" = "ayoutu.be/b"
  /\ extract_video_id "youtu.be/ayoutu.be/b"
     <> video_id_between "youtu.be/" "?" "youtu.be/ayoutu.be/b".
Proof. repeat split; try reflexivity. discriminate. Qed.

(** C6 (amended): [extract_video_id] never raises: the [try] block always
    returns, and the handler would return the input.  For an input without
    ["v="]: if it contains ["youtu.be/"], the result is the text after the
    first ["youtu.be/"] cut at the next ["youtu.be/"] and then at the first
    ["?"] (the text up to the next ["?"] when no further marker comes
    before it); otherwise the result is the input itself. *)
Theorem C6_short_link_or_identity url :
  (exists video_id,
      extract_video_id_try url = ret video_id /\ extract_video_id url = video_id)
  /\ (forall e, extract_video_id_try url = raise e -> extract_video_id url = url)
  /\ (contains "v=" url = false ->
      (contains "youtu.be/" url = true ->
       exists rest,
         after_first "youtu.be/" url = Some rest
         /\ extract_video_id url = upto_first "?" (upto_first "youtu.be/" rest)
         /\ (contains "youtu.be/" (upto_first "?" rest) = false ->
             extract_video_id url = video_id_between "youtu.be/" "?" url))
      /\ (contains "youtu.be/" url = false -> extract_video_id url = url)).
Proof.
  split; [|split].
  - destruct (extract_video_id_try_total url) as [video_id H].
    exists video_id. split; [exact H|]. unfold extract_video_id. rewrite H. reflexivity.
  - intros e H. unfold extract_video_id. rewrite H. reflexivity.
  - intros Hv. split.
    + intros Hs. destruct (contains_after_first _ _ Hs) as [rest Hrest].
      exists rest. split; [exact Hrest|].
      assert (Hid : extract_video_id url
                    = upto_first "?" (upto_first "youtu.be/" rest)).
      { unfold extract_video_id.
        rewrite (extract_video_id_try_short url rest Hv Hrest). reflexivity. }
      split; [exact Hid|].
      intros Hno. rewrite Hid. unfold video_id_between. rewrite Hrest.
      apply upto_first_twice; [reflexivity | exact Hno].
    + intros Hs. unfold extract_video_id, extract_video_id_try.
      rewrite Hv, Hs. reflexivity.
Qed.

Lemma C6_witness :
  contains "v=" "https://youtu.be/abc123?t=5" = false
  /\ extract_video_id "https://youtu.be/abc123?t=5" = "abc123"
  /\ extract_video_id "abc123" = "abc123".
Proof.
  split; [reflexivity|].
  destruct (C6_short_link_or_identity "https://youtu.be/abc123?t=5")
    as [_ [_ Hshort]].
  destruct (Hshort eq_refl) as [Hmarker _].
  destruct (Hmarker eq_refl) as [rest [Hrest [Hid _]]].
  split.
  - rewrite Hid. cbv in Hrest. injection Hrest as <-. reflexivity.
  - destruct (C6_short_link_or_identity "abc123") as [_ [_ Hplain]].
    destruct (Hplain eq_refl) as [_ Hsame]. apply Hsame. reflexivity.
Defined.

End VideoId.

(* ===================================================================== *)
(** * Properties of binary64 addition *)
(* ===================================================================== *)

Section FloatFacts.

Import PyFloat.
Local Open Scope Z_scope.


Lemma dg_pos m : 1 <= dg m.
Proof. unfold dg. lia. Qed.





(** ** Shifting right *)







(** ** The exponent function of binary64 *)

Lemma fexp_eq e : fexp prec emax e = Z.max (e - 53) (-1074).
Proof. reflexivity. Qed.


(** ** Rounding a positive integer mantissa *)










(** ** Order *)




Lemma fexp_mono a b : a <= b -> fexp prec emax a <= fexp prec emax b.
Proof. rewrite !fexp_eq. lia. Qed.





(** ** Adding a non-negative amount never decreases a value *)


End FloatFacts.

(* ===================================================================== *)
(** * Transcript normaliser: the rows of one track *)
(* ===================================================================== *)

Section TrackRows.

Variable vid : string.
Variable selected : available.

Lemma bind_ret_inv {A B} (c : result A) (k : A -> result B) (b : B) :
  bind c k = inr b -> exists a, c = inr a /\ k a = inr b.
Proof. destruct c as [e | a]; cbn; [discriminate | eauto]. Qed.

(** What a row is made of, when [make_row] returns one. *)
Lemma make_row_inv i e r :
  make_row vid selected i e = inr r ->
  exists start raw_text stamp end_stamp start_second,
    e_start e = Some start
    /\ e_text e = Some raw_text
    /\ format_time start = inr stamp
    /\ format_time (add_number start
                      (match e_duration e with Some d => Float d | None => Int 0 end))
       = inr end_stamp
    /\ PyFloat.to_int start = inr start_second
    /\ r = {| video_id := vid;
              start_time_seconds := start;
              end_time_seconds :=
                add_number start
                  (match e_duration e with Some d => Float d | None => Int 0 end);
              start_time := PyFloat.round1 start;
              end_time :=
                PyFloat.round1
                  (add_number start
                     (match e_duration e with Some d => Float d | None => Int 0 end));
              timestamp := stamp;
              end_timestamp := end_stamp;
              duration :=
                round_number
                  (match e_duration e with Some d => Float d | None => Int 0 end);
              text := PyStr.strip raw_text;
              youtube_link :=
                ("https://www.youtube.com/watch?v=" ++ vid
                 ++ "&t=" ++ PyStr.str_int start_second)%string;
              language := lang selected;
              language_name := a_language_name selected;
              caption_type :=
                if is_generated selected then "Auto-generated" else "Manual";
              segment_number := Z.of_nat i + 1 |}.
Proof.
  unfold make_row. intros H.
  destruct (e_start e) as [start |]; cbn in H; [|discriminate].
  destruct (e_text e) as [raw_text |]; cbn in H; [|discriminate].
  apply bind_ret_inv in H. destruct H as [stamp [Hs H]].
  apply bind_ret_inv in H. destruct H as [end_stamp [He H]].
  apply bind_ret_inv in H. destruct H as [start_second [Hi H]].
  injection H as <-.
  exists start, raw_text, stamp, end_stamp, start_second.
  repeat split; assumption.
Qed.

(** A missing ['start'] or ['text'] key raises [KeyError]. *)
Lemma make_row_malformed i e :
  e_start e = None \/ e_text e = None ->
  exists key, make_row vid selected i e = raise (KeyError key).
Proof.
  unfold make_row. intros [H | H].
  - rewrite H. cbn. eauto.
  - rewrite H. destruct (e_start e); cbn; eauto.
Qed.

Lemma rows_of_length entries i block :
  rows_of vid selected entries i = inr block ->
  List.length block = List.length entries.
Proof.
  revert i block. induction entries as [| e rest IH]; intros i block H; cbn in H.
  - injection H as <-. reflexivity.
  - apply bind_ret_inv in H. destruct H as [r [_ H]].
    apply bind_ret_inv in H. destruct H as [rs [Hrs H]].
    injection H as <-. cbn. f_equal. eapply IH. exact Hrs.
Qed.

(** The row at position [j] of a block is the row made from the entry at
    position [j]. *)
Lemma rows_of_nth entries i block j e :
  rows_of vid selected entries i = inr block ->
  nth_error entries j = Some e ->
  exists r, nth_error block j = Some r /\ make_row vid selected (i + j) e = inr r.
Proof.
  revert i block j. induction entries as [| e0 rest IH]; intros i block j H Hj.
  - destruct j; discriminate.
  - cbn in H.
    apply bind_ret_inv in H. destruct H as [r [Hr H]].
    apply bind_ret_inv in H. destruct H as [rs [Hrs H]].
    injection H as <-.
    destruct j as [| j]; cbn in Hj.
    + injection Hj as <-. exists r. rewrite Nat.add_0_r. split; [reflexivity | exact Hr].
    + destruct (IH (S i) rs j Hrs Hj) as [r' [Hn Hm]].
      exists r'. split; [exact Hn|].
      replace (i + S j) with (S i + j) by lia. exact Hm.
Qed.

(** The segment numbers of a block count up from [i + 1]. *)
Lemma rows_of_segments entries i block :
  rows_of vid selected entries i = inr block ->
  map segment_number block = map Z.of_nat (seq (S i) (List.length entries)).
Proof.
  revert i block. induction entries as [| e rest IH]; intros i block H; cbn in H.
  - injection H as <-. reflexivity.
  - apply bind_ret_inv in H. destruct H as [r [Hr H]].
    apply bind_ret_inv in H. destruct H as [rs [Hrs H]].
    injection H as <-. cbn [map List.length seq]. f_equal.
    + apply make_row_inv in Hr.
      destruct Hr as (? & ? & ? & ? & ? & _ & _ & _ & _ & _ & ->).
      cbn. lia.
    + apply IH. exact Hrs.
Qed.

(** One malformed entry makes the whole block raise. *)
Lemma rows_of_malformed entries i e :
  In e entries ->
  e_start e = None \/ e_text e = None ->
  exists x, rows_of vid selected entries i = raise x.
Proof.
  revert i. induction entries as [| e0 rest IH]; intros i Hin Hbad; [contradiction|].
  cbn. destruct Hin as [-> | Hin].
  - destruct (make_row_malformed i e Hbad) as [key ->]. cbn. eauto.
  - destruct (make_row vid selected i e0) as [x | r]; cbn; [eauto|].
    destruct (IH (S i) Hin Hbad) as [x ->]. cbn. eauto.
Qed.

(** The [enumerate] loop appends the block of the track. *)
Lemma process_entries_rows_of entries i transcript_data :
  process_entries vid selected entries i transcript_data
  = (block <- rows_of vid selected entries i ;; ret (transcript_data ++ block)).
Proof.
  revert i transcript_data.
  induction entries as [| e rest IH]; intros i transcript_data; cbn.
  - rewrite app_nil_r. reflexivity.
  - destruct (make_row vid selected i e) as [x | r]; cbn; [reflexivity|].
    rewrite IH. destruct (rows_of vid selected rest (S i)) as [x | rs]; cbn;
      [reflexivity|].
    rewrite <- app_assoc. reflexivity.
Qed.

End TrackRows.

(* ===================================================================== *)
(** * Properties of [strip] and [lower] *)
(* ===================================================================== *)

Section StripFacts.

Import PyStr.
Local Open Scope string_scope.

Lemma lstrip_spec s :
  exists l, s = l ++ lstrip s
            /\ all_space l = true
            /\ match lstrip s with
               | String c _ => isspace c = false
               | EmptyString => True
               end.
Proof.
  induction s as [| c s IH]; cbn.
  - exists EmptyString. repeat split.
  - destruct (isspace c) eqn:Hc.
    + destruct IH as [l [Hs [Hl Hh]]].
      exists (String c l). cbn. rewrite Hc, Hl. repeat split; [f_equal; exact Hs | exact Hh].
    + exists EmptyString. repeat split. exact Hc.
Qed.

Lemma rstrip_spec s :
  exists t, s = rstrip s ++ t /\ all_space t = true.
Proof.
  induction s as [| c s IH]; cbn.
  - exists EmptyString. split; reflexivity.
  - destruct IH as [t [Hs Ht]].
    destruct (rstrip s) as [| a u] eqn:Hr.
    + cbn in Hs. subst t. destruct (isspace c) eqn:Hc.
      * exists (String c s). cbn. rewrite Hc, Ht. split; reflexivity.
      * exists s. split; [reflexivity | exact Ht].
    + exists t. cbn. split; [f_equal; exact Hs | exact Ht].
Qed.

Lemma rstrip_last s d :
  get (String.length (rstrip s) - 1) (rstrip s) = Some d -> isspace d = false.
Proof.
  induction s as [| c s IH]; cbn.
  - discriminate.
  - destruct (rstrip s) as [| a u] eqn:Hr.
    + destruct (isspace c) eqn:Hc; cbn; [discriminate|].
      intros H. injection H as <-. exact Hc.
    + cbn [String.length Nat.sub] in *. rewrite ?Nat.sub_0_r in *.
      cbn [get]. exact IH.
Qed.

Lemma rstrip_head c s :
  isspace c = false -> exists u, rstrip (String c s) = String c u.
Proof.
  intros Hc. cbn. destruct (rstrip s); [rewrite Hc|]; eauto.
Qed.

(** [strip] removes white space at both ends and nothing else. *)
Lemma strip_spec s :
  exists l t,
    s = l ++ strip s ++ t
    /\ all_space l = true /\ all_space t = true
    /\ trimmed (strip s) = true.
Proof.
  unfold strip.
  destruct (lstrip_spec s) as [l [Hs [Hl Hh]]].
  destruct (rstrip_spec (lstrip s)) as [t [Hr Ht]].
  exists l, t. split; [rewrite <- Hr; exact Hs|].
  split; [exact Hl|]. split; [exact Ht|].
  destruct (lstrip s) as [| c u] eqn:Hls; [reflexivity|].
  destruct (rstrip_head c u Hh) as [v Hv].
  pose proof (rstrip_last (String c u)) as Hlast.
  rewrite Hv in *. unfold trimmed. rewrite Hh. cbn [negb andb].
  destruct (get (String.length (String c v) - 1) (String c v)) as [d |];
    [|reflexivity].
  rewrite (Hlast d eq_refl). reflexivity.
Qed.

Lemma startswith_lower p s :
  startswith p s = true -> startswith (lower p) (lower s) = true.
Proof.
  revert s. induction p as [| a p IH]; intros s H; [reflexivity|].
  destruct s as [| b s]; cbn in H; [discriminate|].
  destruct (Ascii.eqb_spec a b) as [-> |]; [|discriminate].
  cbn. rewrite Ascii.eqb_refl. apply IH. exact H.
Qed.

Lemma contains_lower p s :
  contains p s = true -> contains (lower p) (lower s) = true.
Proof.
  induction s as [| c s IH]; intros H.
  - cbn in H. destruct (startswith p EmptyString) eqn:Hp; [|discriminate].
    apply startswith_lower in Hp. cbn in *. rewrite Hp. reflexivity.
  - cbn in H. destruct (startswith p (String c s)) eqn:Hp.
    + apply startswith_lower in Hp. cbn [lower contains] in *. rewrite Hp. reflexivity.
    + cbn [lower contains]. rewrite (IH H).
      destruct (startswith (lower p) (String (lower_char c) (lower s))); reflexivity.
Qed.

(** A message that contains the signature is in the error class that the
    program tests for (it lower-cases the message first). *)
Lemma signature_in_message message :
  contains signature message = true ->
  contains signature (lower message) = true.
Proof. intros H. apply contains_lower in H. exact H. Qed.

End StripFacts.

(* ===================================================================== *)
(** * Transcript normaliser: the loop over the selected tracks *)
(* ===================================================================== *)

Section Loop.

Variable vid : string.
Variable available_transcripts : list available.

Lemma track_rows_eq i selected block :
  py_index available_transcripts i = inr selected ->
  rows_of vid selected (track_entries i selected) 0 = inr block ->
  track_rows vid available_transcripts i = block.
Proof. intros Hi Hb. unfold track_rows. rewrite Hi. cbn. rewrite Hb. reflexivity. Qed.

(** One iteration of the loop: the block of the track is appended, or the
    exception of its rows leaves the loop. *)
Lemma extract_loop_cons i rest selected transcript_data :
  py_index available_transcripts i = inr selected ->
  fst (extract_loop vid available_transcripts (i :: rest) transcript_data)
  = (block <- rows_of vid selected (track_entries i selected) 0 ;;
     fst (extract_loop vid available_transcripts rest (transcript_data ++ block))).
Proof.
  intros Hi. cbn [extract_loop]. rewrite Hi. unfold track_entries.
  destruct (fetch_transcript i selected) as [got calls]. cbn [fst].
  assert (Hskip :
    fst (let (r, later) :=
           extract_loop vid available_transcripts rest transcript_data in
         (r, calls ++ later))
    = (block <- rows_of vid selected [] 0 ;;
       fst (extract_loop vid available_transcripts rest (transcript_data ++ block)))).
  { cbn [rows_of bind ret]. rewrite app_nil_r.
    destruct (extract_loop vid available_transcripts rest transcript_data).
    reflexivity. }
  destruct got as [| [[| e es] |]]; cbn [falsy]; try exact Hskip.
  rewrite process_entries_rows_of.
  destruct (rows_of vid selected (e :: es) 0) as [x | block]; cbn [bind ret];
    [reflexivity|].
  destruct (extract_loop vid available_transcripts rest (transcript_data ++ block)).
  reflexivity.
Qed.

(** A skipped track: the loop goes on with the rows collected so far. *)
Lemma extract_loop_skip i rest selected transcript_data :
  py_index available_transcripts i = inr selected ->
  track_entries i selected = [] ->
  extract_loop vid available_transcripts (i :: rest) transcript_data
  = (fst (extract_loop vid available_transcripts rest transcript_data),
     snd (fetch_transcript i selected)
     ++ snd (extract_loop vid available_transcripts rest transcript_data)).
Proof.
  intros Hi Hskip. cbn [extract_loop]. rewrite Hi. unfold track_entries in Hskip.
  destruct (fetch_transcript i selected) as [got calls]. cbn [fst snd] in *.
  destruct got as [| [[| e es] |]]; cbn [falsy]; try discriminate;
    destruct (extract_loop vid available_transcripts rest transcript_data);
    reflexivity.
Qed.

Lemma extract_loop_index_error i rest transcript_data e :
  py_index available_transcripts i = inl e ->
  extract_loop vid available_transcripts (i :: rest) transcript_data = (raise e, []).
Proof. intros Hi. cbn [extract_loop]. rewrite Hi. reflexivity. Qed.

(** When the loop ends normally, the rows are the blocks of the selected
    tracks, one after the other. *)
Lemma extract_loop_rows selected_transcripts transcript_data rows :
  fst (extract_loop vid available_transcripts selected_transcripts transcript_data)
  = inr rows ->
  rows = transcript_data
         ++ concat (map (track_rows vid available_transcripts) selected_transcripts)
  /\ Forall (fun i => exists selected block,
                 py_index available_transcripts i = inr selected
                 /\ rows_of vid selected (track_entries i selected) 0 = inr block
                 /\ track_rows vid available_transcripts i = block)
       selected_transcripts.
Proof.
  revert transcript_data rows.
  induction selected_transcripts as [| i rest IH]; intros transcript_data rows H.
  - cbn in H. injection H as <-. cbn. rewrite app_nil_r. split; constructor.
  - destruct (py_index available_transcripts i) as [x | selected] eqn:Hi.
    + rewrite (extract_loop_index_error i rest transcript_data x Hi) in H. discriminate.
    + rewrite (extract_loop_cons i rest selected transcript_data Hi) in H.
      apply bind_ret_inv in H. destruct H as [block [Hb H]].
      destruct (IH _ _ H) as [Hrows Hall].
      pose proof (track_rows_eq i selected block Hi Hb) as Ht.
      split.
      * cbn [map concat]. rewrite Ht, Hrows, app_assoc. reflexivity.
      * constructor; [|exact Hall]. exists selected, block. auto.
Qed.

(** The loop over [sel1 ++ sel2] is the loop over [sel1] followed by the
    loop over [sel2]. *)
Lemma extract_loop_app sel1 sel2 transcript_data :
  fst (extract_loop vid available_transcripts (sel1 ++ sel2) transcript_data)
  = (collected <- fst (extract_loop vid available_transcripts sel1 transcript_data) ;;
     fst (extract_loop vid available_transcripts sel2 collected)).
Proof.
  revert transcript_data. induction sel1 as [| i rest IH]; intros transcript_data.
  - reflexivity.
  - cbn [app].
    destruct (py_index available_transcripts i) as [x | selected] eqn:Hi.
    + rewrite !(extract_loop_index_error i _ transcript_data x Hi). reflexivity.
    + rewrite !(extract_loop_cons i _ selected transcript_data Hi).
      destruct (rows_of vid selected (track_entries i selected) 0) as [x | block];
        cbn [bind]; [reflexivity | apply IH].
Qed.

Lemma py_index_out_of_range {A} (l : list A) i :
  (i < - Z.of_nat (List.length l) \/ Z.of_nat (List.length l) <= i)%Z ->
  py_index l i = raise IndexError.
Proof.
  intros H. unfold py_index.
  destruct (Z.ltb_spec i 0);
    [destruct (Z.leb_spec 0 (i + Z.of_nat (List.length l)));
       [destruct (Z.ltb_spec (i + Z.of_nat (List.length l)) (Z.of_nat (List.length l)))|]
    | destruct (Z.leb_spec 0 i);
       [destruct (Z.ltb_spec i (Z.of_nat (List.length l)))|]];
    cbn [andb]; try reflexivity; lia.
Qed.

End Loop.

(* ===================================================================== *)
(** * Transcript normaliser: the claims *)
(* ===================================================================== *)

Section Normaliser.

Variable vid : string.
Variable available_transcripts : list available.






Lemma rows_of_in selected entries i block r :
  rows_of vid selected entries i = inr block ->
  In r block ->
  exists e k, In e entries /\ make_row vid selected k e = inr r.
Proof.
  revert i block. induction entries as [| e0 rest IH]; intros i block H Hin; cbn in H.
  - injection H as <-. contradiction.
  - apply bind_ret_inv in H. destruct H as [r0 [Hr0 H]].
    apply bind_ret_inv in H. destruct H as [rs [Hrs H]].
    injection H as <-. destruct Hin as [<- | Hin].
    + exists e0, i. split; [left; reflexivity | exact Hr0].
    + destruct (IH _ _ Hrs Hin) as [e [k [He Hk]]].
      exists e, k. split; [right; exact He | exact Hk].
Qed.

Lemma track_rows_segments i :
  map segment_number (track_rows vid available_transcripts i)
  = one_to (List.length (track_rows vid available_transcripts i)).
Proof.
  unfold track_rows.
  destruct (py_index available_transcripts i) as [x | selected]; cbn [bind];
    [reflexivity|].
  destruct (rows_of vid selected (track_entries i selected) 0) as [x | block] eqn:Hb;
    [reflexivity|].
  rewrite (rows_of_segments vid selected _ _ _ Hb),
    (rows_of_length vid selected _ _ _ Hb). reflexivity.
Qed.

(** C1: a selected track whose direct fetch raises [e].
    - If the message of [e] has the signature (the program looks for it in
      the lower-cased message) and the language code is not ["en"], exactly
      one fallback is attempted: [translate('en')] is called once and, when
      it returns, the translated track is fetched once; the entries of that
      fetch are the ones that are normalised.
    - If the language code is ["en"], no fallback call is made and the
      track is given up.
    - With any other message no fallback call is made and the track is
      skipped.
    - Whatever rows were collected before, the rows of the track are built
      from these entries; a skipped track adds no row and the loop goes on
      with the tracks selected after it. *)
Theorem C1_fallback_policy i rest selected e :
  py_index available_transcripts i = inr selected ->
  t_fetch (a_transcript selected) = raise e ->
  (PyStr.contains signature (PyStr.lower (exn_str e)) = true ->
   String.eqb (lang selected) "en" = false ->
   fallback_attempts (snd (fetch_transcript i selected)) = 1
   /\ match t_translate (a_transcript selected) "en" with
      | inr tr =>
          snd (fetch_transcript i selected)
          = [Fetch i; Translate i "en"; FetchTranslated i]
          /\ fallback_fetches (snd (fetch_transcript i selected)) = 1
          /\ match tr_fetch tr with
             | inr entries =>
                 fst (fetch_transcript i selected) = Transcript (Some entries)
                 /\ track_entries i selected = entries
             | inl _ =>
                 fst (fetch_transcript i selected) = Continue
                 /\ track_entries i selected = []
             end
      | inl _ =>
          snd (fetch_transcript i selected) = [Fetch i; Translate i "en"]
          /\ fst (fetch_transcript i selected) = Continue
          /\ track_entries i selected = []
      end)
  /\ (PyStr.contains signature (PyStr.lower (exn_str e)) = true ->
      String.eqb (lang selected) "en" = true ->
      fetch_transcript i selected = (Continue, [Fetch i])
      /\ fallback_attempts (snd (fetch_transcript i selected)) = 0
      /\ track_entries i selected = [])
  /\ (PyStr.contains signature (PyStr.lower (exn_str e)) = false ->
      fetch_transcript i selected = (Transcript None, [Fetch i])
      /\ fallback_attempts (snd (fetch_transcript i selected)) = 0
      /\ track_entries i selected = [])
  /\ (forall transcript_data,
         fst (extract_loop vid available_transcripts (i :: rest) transcript_data)
         = (block <- rows_of vid selected (track_entries i selected) 0 ;;
            fst (extract_loop vid available_transcripts rest
                   (transcript_data ++ block))))
  /\ (track_entries i selected = [] ->
      track_rows vid available_transcripts i = []
      /\ (forall transcript_data,
             extract_loop vid available_transcripts (i :: rest) transcript_data
             = (fst (extract_loop vid available_transcripts rest transcript_data),
                snd (fetch_transcript i selected)
                ++ snd (extract_loop vid available_transcripts rest transcript_data)))
      /\ extract_transcript vid available_transcripts (i :: rest)
         = extract_transcript vid available_transcripts rest
      /\ extract_calls vid available_transcripts (i :: rest)
         = snd (fetch_transcript i selected)
           ++ extract_calls vid available_transcripts rest).
Proof.
  intros Hi He.
  split; [|split; [|split; [|split]]].
  - intros Hsig Hlang. unfold track_entries, fetch_transcript.
    rewrite He. unfold raise. rewrite Hsig, Hlang. cbn [negb].
    destruct (t_translate (a_transcript selected) "en") as [x | tr].
    + repeat split.
    + destruct (tr_fetch tr) as [x | entries]; repeat split.
  - intros Hsig Hlang. unfold track_entries, fetch_transcript.
    rewrite He. unfold raise. rewrite Hsig, Hlang. repeat split.
  - intros Hsig. unfold track_entries, fetch_transcript.
    rewrite He. unfold raise. rewrite Hsig. repeat split.
  - intros transcript_data.
    apply (extract_loop_cons vid available_transcripts i rest selected _ Hi).
  - intros Hskip.
    pose proof (fun transcript_data =>
                  extract_loop_skip vid available_transcripts i rest selected
                    transcript_data Hi Hskip) as Hloop.
    split; [|split; [exact Hloop | split]].
    + unfold track_rows. rewrite Hi. cbn [bind]. rewrite Hskip. reflexivity.
    + unfold extract_transcript. rewrite Hloop. reflexivity.
    + unfold extract_calls. rewrite Hloop. reflexivity.
Qed.


(** C3: when the loop ends normally, the list returned by
    [extract_transcript] is the concatenation of the blocks of the selected
    tracks, in the order of selection; the block of a track holds the rows
    of its entries in the order of the entries, so its segment numbers
    ascend from 1.  (When an exception leaves the loop the list is empty.) *)
Theorem C3_rows_in_selection_order selected_transcripts :
  match fst (extract_loop vid available_transcripts selected_transcripts []) with
  | inr _ =>
      extract_transcript vid available_transcripts selected_transcripts
      = concat (map (track_rows vid available_transcripts) selected_transcripts)
      /\ Forall (fun i => exists selected,
                     py_index available_transcripts i = inr selected
                     /\ rows_of vid selected (track_entries i selected) 0
                        = inr (track_rows vid available_transcripts i)
                     /\ forall j e,
                         nth_error (track_entries i selected) j = Some e ->
                         exists r,
                           nth_error (track_rows vid available_transcripts i) j = Some r
                           /\ make_row vid selected j e = inr r
                           /\ segment_number r = (Z.of_nat j + 1)%Z)
           selected_transcripts
  | inl _ => extract_transcript vid available_transcripts selected_transcripts = []
  end
  /\ Forall (fun i => map segment_number (track_rows vid available_transcripts i)
                      = one_to (List.length (track_rows vid available_transcripts i)))
       selected_transcripts.
Proof.
  split.
  - unfold extract_transcript.
    destruct (fst (extract_loop vid available_transcripts selected_transcripts []))
      as [x | rows] eqn:Hloop; [reflexivity|].
    destruct (extract_loop_rows vid available_transcripts _ _ _ Hloop) as [Hrows Hall].
    split; [exact Hrows|].
    rewrite Forall_forall in *. intros i Hi.
    destruct (Hall i Hi) as [selected [block [Hsel [Hb Ht]]]].
    exists selected. rewrite Ht. split; [exact Hsel|]. split; [exact Hb|].
    intros j e Hj.
    destruct (rows_of_nth vid selected _ _ _ _ _ Hb Hj) as [r [Hn Hm]].
    exists r. cbn [Nat.add] in Hm. split; [exact Hn|]. split; [exact Hm|].
    apply make_row_inv in Hm.
    destruct Hm as (? & ? & ? & ? & ? & _ & _ & _ & _ & _ & ->). reflexivity.
  - rewrite Forall_forall. intros i _. apply track_rows_segments.
Qed.


(** C10: an exception that leaves the loop makes [extract_transcript]
    return the empty list, whatever rows were collected before.  After any
    selection [sel1] that was processed normally, an index out of range
    raises [IndexError], and a track with an entry without ['start'] or
    without ['text'] raises too; in both cases the result is empty. *)
Theorem C10_exception_discards_rows sel1 i sel2 collected :
  fst (extract_loop vid available_transcripts sel1 []) = inr collected ->
  extract_transcript vid available_transcripts sel1 = collected
  /\ (forall x,
         fst (extract_loop vid available_transcripts (sel1 ++ i :: sel2) []) = raise x ->
         extract_transcript vid available_transcripts (sel1 ++ i :: sel2) = [])
  /\ ((i < - Z.of_nat (List.length available_transcripts)
       \/ Z.of_nat (List.length available_transcripts) <= i)%Z ->
      fst (extract_loop vid available_transcripts (sel1 ++ i :: sel2) [])
      = raise IndexError
      /\ extract_transcript vid available_transcripts (sel1 ++ i :: sel2) = [])
  /\ (forall selected e,
         py_index available_transcripts i = inr selected ->
         In e (track_entries i selected) ->
         e_start e = None \/ e_text e = None ->
         (exists x,
             fst (extract_loop vid available_transcripts (sel1 ++ i :: sel2) [])
             = raise x)
         /\ extract_transcript vid available_transcripts (sel1 ++ i :: sel2) = []).
Proof.
  intros Hcollected.
  split; [unfold extract_transcript; rewrite Hcollected; reflexivity|].
  split; [intros x Hx; unfold extract_transcript; rewrite Hx; reflexivity|].
  split.
  - intros Hrange.
    assert (Hloop :
      fst (extract_loop vid available_transcripts (sel1 ++ i :: sel2) [])
      = raise IndexError).
    { rewrite extract_loop_app, Hcollected. cbn [bind].
      rewrite (extract_loop_index_error vid available_transcripts i sel2 collected
                 IndexError (py_index_out_of_range _ _ Hrange)).
      reflexivity. }
    split; [exact Hloop|]. unfold extract_transcript. rewrite Hloop. reflexivity.
  - intros selected e Hsel Hin Hbad.
    destruct (rows_of_malformed vid selected _ 0 e Hin Hbad) as [x Hx].
    assert (Hloop :
      fst (extract_loop vid available_transcripts (sel1 ++ i :: sel2) [])
      = raise x).
    { rewrite extract_loop_app, Hcollected. cbn [bind].
      rewrite (extract_loop_cons vid available_transcripts i sel2 selected collected Hsel),
        Hx. reflexivity. }
    split; [eauto|]. unfold extract_transcript. rewrite Hloop. reflexivity.
Qed.

End Normaliser.

(* ===================================================================== *)
(** * Transcript normaliser: the claims on the example data *)
(* ===================================================================== *)

Section NormaliserExamples.

Import Example.

Lemma C1_witness :
  fallback_attempts (snd (fetch_transcript 1 es_auto)) = 1
  /\ fallback_fetches (snd (fetch_transcript 1 es_auto)) = 1
  /\ track_entries 1 es_auto = [hola]
  /\ extract_transcript "abc123" available_transcripts [3; 0]%Z
     = extract_transcript "abc123" available_transcripts [0]%Z
  /\ extract_transcript "abc123" available_transcripts [2; 0]%Z
     = extract_transcript "abc123" available_transcripts [0]%Z.
Proof.
  destruct (C1_fallback_policy "abc123" available_transcripts 1 [0%Z] es_auto
              (ServiceError "no element found: line 1, column 0") eq_refl eq_refl)
    as [Hfallback _].
  destruct (Hfallback eq_refl eq_refl) as [Hone [_ [Hfetches [_ Hentries]]]].
  split; [exact Hone|]. split; [exact Hfetches|]. split; [exact Hentries|].
  split.
  - destruct (C1_fallback_policy "abc123" available_transcripts 3 [0%Z] en_empty
                (ServiceError "No element found: line 1, column 0") eq_refl eq_refl)
      as [_ [Hen [_ [_ Hskip]]]].
    destruct (Hen eq_refl eq_refl) as [_ [_ Hnone]].
    destruct (Hskip Hnone) as [_ [_ [Hsame _]]]. exact Hsame.
  - destruct (C1_fallback_policy "abc123" available_transcripts 2 [0%Z] fr_disabled
                (ServiceError "Subtitles are disabled for this video") eq_refl eq_refl)
      as [_ [_ [Hother [_ Hskip]]]].
    destruct (Hother eq_refl) as [_ [_ Hnone]].
    destruct (Hskip Hnone) as [_ [_ [Hsame _]]]. exact Hsame.
Defined.


(** The scenario of one manual English and one generated Spanish track,
    both selected: the English rows come first, then the Spanish ones. *)
Lemma C3_witness :
  extract_transcript "abc123" available_transcripts [0; 1]%Z
  = track_rows "abc123" available_transcripts 0
    ++ track_rows "abc123" available_transcripts 1
  /\ map caption_type (extract_transcript "abc123" available_transcripts [0; 1]%Z)
     = ["Manual"; "Manual"; "Auto-generated"]
  /\ map text (extract_transcript "abc123" available_transcripts [1; 0]%Z)
     = ["hola"; "Hello"; "world"].
Proof.
  split; [|split; reflexivity].
  pose proof (C3_rows_in_selection_order "abc123" available_transcripts [0; 1]%Z)
    as [Hconcat _].
  change (fst (extract_loop "abc123" available_transcripts [0; 1]%Z []))
    with (@inr exn (list row)
            (extract_transcript "abc123" available_transcripts [0; 1]%Z)) in Hconcat.
  cbv iota in Hconcat. destruct Hconcat as [Hconcat _].
  rewrite Hconcat. cbn [map concat]. rewrite app_nil_r. reflexivity.
Defined.


Lemma C10_witness :
  List.length (extract_transcript "abc123" available_transcripts [0]%Z) = 2
  /\ extract_transcript "abc123" available_transcripts [0; 7; 1]%Z = []
  /\ extract_transcript "abc123" available_transcripts [0; 4; 1]%Z = [].
Proof.
  split; [reflexivity|].
  destruct (C10_exception_discards_rows "abc123" available_transcripts
              [0%Z] 7 [1%Z] _ eq_refl) as [_ [_ [Hrange _]]].
  destruct (C10_exception_discards_rows "abc123" available_transcripts
              [0%Z] 4 [1%Z] _ eq_refl) as [_ [_ [_ Hbad]]].
  split.
  - apply Hrange. right. cbn. lia.
  - apply (Hbad de_malformed no_text eq_refl).
    + right. left. reflexivity.
    + right. reflexivity.
Defined.

End NormaliserExamples.

(* ===================================================================== *)
(** * Caption catalogue lookup: properties *)
(* ===================================================================== *)

Section Catalogue.

Lemma sort_captions_spec transcript_list manual_captions auto_captions :
  sort_captions transcript_list manual_captions auto_captions
  = (manual_captions
     ++ map caption_info_of (filter (fun t => negb (t_is_generated t)) transcript_list),
     auto_captions ++ map caption_info_of (filter t_is_generated transcript_list)).
Proof.
  revert manual_captions auto_captions.
  induction transcript_list as [| t rest IH]; intros manual_captions auto_captions.
  - cbn. rewrite !app_nil_r. reflexivity.
  - cbn [sort_captions filter]. destruct (t_is_generated t); cbn [negb map].
    + rewrite IH, <- app_assoc. reflexivity.
    + rewrite IH, <- app_assoc. reflexivity.
Qed.

(** C7: the lookup returns the tracks of the service that are not
    generated, in the order of the service, and then those that are; when
    the call of the service raises, it returns two empty lists. *)
Theorem C7_catalogue_partition list_transcripts vid :
  match list_transcripts vid with
  | inr transcript_list =>
      check_available_captions list_transcripts vid
      = (map caption_info_of
           (filter (fun t => negb (t_is_generated t)) transcript_list),
         map caption_info_of (filter t_is_generated transcript_list))
  | inl _ => check_available_captions list_transcripts vid = ([], [])
  end.
Proof.
  unfold check_available_captions.
  destruct (list_transcripts vid) as [x | transcript_list]; [reflexivity|].
  apply sort_captions_spec.
Qed.

Lemma C7_witness :
  check_available_captions Example.list_transcripts "abc123"
  = ([caption_info_of (a_transcript Example.en_manual)],
     [caption_info_of (a_transcript Example.es_auto);
      caption_info_of (a_transcript Example.en_empty)])
  /\ check_available_captions Example.list_transcripts "unknown" = ([], []).
Proof.
  split.
  - exact (C7_catalogue_partition Example.list_transcripts "abc123").
  - exact (C7_catalogue_partition Example.list_transcripts "unknown").
Defined.

End Catalogue.

(* ===================================================================== *)
(** * Export formatter: properties *)
(* ===================================================================== *)

Section ExportFormatter.

Import PyStr.
Local Open Scope string_scope.

Variable order : set_order.

Lemma length_take n s : String.length (take n s) = Nat.min n (String.length s).
Proof.
  revert s. induction n as [| n IH]; intros s; [reflexivity|].
  destruct s as [| c s]; [reflexivity|]. cbn. f_equal. apply IH.
Qed.

Lemma length_replace_char a b s : String.length (replace_char a b s) = String.length s.
Proof. induction s as [| c s IH]; cbn; [reflexivity | f_equal; exact IH]. Qed.

(** The members of a Python set, in whatever order, are as many as the
    distinct members of the list. *)
Lemma elements_length l :
  List.length (elements order l) = List.length (nodup string_dec l).
Proof.
  apply Permutation_length, NoDup_Permutation.
  - apply elements_nodup.
  - apply NoDup_nodup.
  - intros x. rewrite elements_in, nodup_In. reflexivity.
Qed.

(** C8: for a row list that is not empty, the three file names are
    [full_transcript], [simple_transcript] and [timeline], each followed by
    [_], the language part, [_], the title with spaces replaced by [_] and
    cut to 50 characters, [_], the time stamp of that variant, and [.csv].
    The language part joins the distinct language codes of the rows with
    [_] (in the iteration order of the set) when they are at most 3, and is
    their number followed by [languages] otherwise. *)
Theorem C8_export_file_names transcript_data video_title stamp1 stamp2 stamp3 :
  transcript_data <> [] ->
  let codes := languages order transcript_data in
  let language_join :=
    if (List.length codes <=? 3)%nat then join "_" codes
    else str_nat (List.length codes) ++ "languages" in
  let title_slug := take 50 (replace_char " " "_" video_title) in
  map file_name
    (payloads (save_transcript_options order transcript_data video_title
                 (stamp1, stamp2, stamp3)))
  = [("full_transcript" ++ "_" ++ language_join ++ "_" ++ title_slug
      ++ "_" ++ stamp1 ++ ".csv");
     ("simple_transcript" ++ "_" ++ language_join ++ "_" ++ title_slug
      ++ "_" ++ stamp2 ++ ".csv");
     ("timeline" ++ "_" ++ language_join ++ "_" ++ title_slug
      ++ "_" ++ stamp3 ++ ".csv")]
  /\ NoDup codes
  /\ (forall code, In code codes
                   <-> exists r, In r transcript_data /\ language r = code)
  /\ List.length codes
     = List.length (nodup string_dec (map language transcript_data))
  /\ String.length title_slug = Nat.min 50 (String.length video_title).
Proof.
  intros Hne codes language_join title_slug.
  split; [|split; [|split; [|split]]].
  - destruct transcript_data as [| r rest]; [congruence|]. reflexivity.
  - apply elements_nodup.
  - intros code. unfold codes, languages. rewrite elements_in, in_map_iff.
    split; intros [r [H1 H2]]; exists r; auto.
  - apply elements_length.
  - unfold title_slug. rewrite length_take, length_replace_char. reflexivity.
Qed.

(** C9: for the empty row list no download is offered: the only call on
    the user interface is the warning. *)
Theorem C9_no_payload_for_empty video_title stamps :
  save_transcript_options order [] video_title stamps
  = [Warning "No transcript data to save."]
  /\ payloads (save_transcript_options order [] video_title stamps) = [].
Proof. split; reflexivity. Qed.

End ExportFormatter.

Section ExportExamples.

Import Example.
Local Open Scope string_scope.

(** Four languages give [4languages], in any iteration order of the set. *)
Lemma four_languages_in_any_order (order : set_order) :
  language_str order
    [row_in "en"; row_in "es"; row_in "fr"; row_in "de"; row_in "es"]
  = "4languages".
Proof.
  unfold language_str, languages. rewrite elements_length. reflexivity.
Qed.

(** Two languages give [en_es], four give [4languages]. *)
Lemma C8_witness :
  map file_name
    (payloads (save_transcript_options last_occurrence_order
                 [row_in "en"; row_in "en"; row_in "es"] "My video title"
                 ("20240131_235959", "20240131_235959", "20240201_000000")))
  = ["full_transcript_en_es_My_video_title_20240131_235959.csv";
     "simple_transcript_en_es_My_video_title_20240131_235959.csv";
     "timeline_en_es_My_video_title_20240201_000000.csv"]
  /\ map file_name
       (payloads (save_transcript_options last_occurrence_order
                    [row_in "en"; row_in "es"; row_in "fr"; row_in "de"; row_in "es"]
                    "t" ("s", "s", "s")))
     = ["full_transcript_4languages_t_s.csv";
        "simple_transcript_4languages_t_s.csv";
        "timeline_4languages_t_s.csv"].
Proof.
  split.
  - destruct (C8_export_file_names last_occurrence_order
                [row_in "en"; row_in "en"; row_in "es"] "My video title"
                "20240131_235959" "20240131_235959" "20240201_000000"
                ltac:(discriminate)) as [Hnames _].
    rewrite Hnames. reflexivity.
  - destruct (C8_export_file_names last_occurrence_order
                [row_in "en"; row_in "es"; row_in "fr"; row_in "de"; row_in "es"]
                "t" "s" "s" "s" ltac:(discriminate)) as [Hnames _].
    rewrite Hnames. reflexivity.
Defined.

Lemma C9_witness :
  payloads (save_transcript_options last_occurrence_order []
              "My video title" ("s", "s", "s")) = [].
Proof.
  exact (proj2 (C9_no_payload_for_empty last_occurrence_order
                  "My video title" ("s", "s", "s"))).
Defined.

End ExportExamples.

(* ===================================================================== *)
(** * [format_time]: properties *)
(* ===================================================================== *)

Section FormatTime.

Local Open Scope string_scope.

Lemma length_append (a b : string) :
  String.length (a ++ b) = String.length a + String.length b.
Proof. induction a as [| c a IH]; cbn; [reflexivity | rewrite IH; reflexivity]. Qed.

(** Two digits for the numbers from 0 to 99. *)
Lemma format_02d_width z :
  (0 <= z < 100)%Z -> String.length (PyStr.format_02d z) = 2.
Proof.
  intros Hz.
  assert (Hall : forallb (fun n => Nat.eqb (String.length (PyStr.format_02d (Z.of_nat n))) 2)
                   (seq 0 100) = true) by (vm_compute; reflexivity).
  rewrite forallb_forall in Hall.
  specialize (Hall (Z.to_nat z)).
  rewrite Z2Nat.id in Hall by lia.
  apply Nat.eqb_eq, Hall, in_seq. lia.
Qed.

(** X1: [format_time] returns exactly when [int()] accepts its argument,
    that is for every float but NaN and the infinities.  The text it
    returns is hours, minutes and seconds, each written with [:02d] and
    separated by colons, where minutes and seconds lie between 0 and 59 and
    [3600 * hours + 60 * minutes + seconds] is [int()] of the argument,
    below zero as well. *)
Theorem X1_format_time_fields x :
  match PyFloat.to_int x with
  | inr total =>
      exists hours minutes seconds,
        format_time x
        = ret (PyStr.format_02d hours ++ ":" ++ PyStr.format_02d minutes
               ++ ":" ++ PyStr.format_02d seconds)
        /\ (3600 * hours + 60 * minutes + seconds = total)%Z
        /\ (0 <= minutes < 60)%Z /\ (0 <= seconds < 60)%Z
        /\ (0 <= total -> 0 <= hours)%Z
  | inl e =>
      format_time x = raise e
      /\ (x = S754_nan \/ exists s, x = S754_infinity s)
  end.
Proof.
  unfold format_time.
  destruct (PyFloat.to_int x) as [e | total] eqn:Hx; cbn [bind].
  - split; [reflexivity|].
    destruct x as [s | s | | s m ex]; cbn in Hx; try discriminate; eauto.
  - exists (total / 60 / 60)%Z, ((total / 60) mod 60)%Z, (total mod 60)%Z.
    split; [reflexivity|].
    pose proof (Z.mod_pos_bound total 60 ltac:(lia)).
    pose proof (Z.mod_pos_bound (total / 60) 60 ltac:(lia)).
    pose proof (Z.div_mod total 60 ltac:(lia)).
    pose proof (Z.div_mod (total / 60) 60 ltac:(lia)).
    repeat split; lia.
Qed.

(** X2: for a time from zero to less than a hundred hours the text has
    exactly eight characters, [HH:MM:SS]. *)
Theorem X2_format_time_width x total stamp :
  PyFloat.to_int x = inr total ->
  (0 <= total < 360000)%Z ->
  format_time x = inr stamp ->
  String.length stamp = 8
  /\ get 2 stamp = Some ":"%char /\ get 5 stamp = Some ":"%char.
Proof.
  intros Hx Ht Hs. unfold format_time in Hs. rewrite Hx in Hs. cbn [bind ret] in Hs.
  injection Hs as <-.
  pose proof (Z.mod_pos_bound total 60 ltac:(lia)) as Hsec.
  pose proof (Z.mod_pos_bound (total / 60) 60 ltac:(lia)) as Hmin.
  assert (Hh : (0 <= total / 60 / 60 < 100)%Z).
  { rewrite Z.div_div by lia. split.
    - apply Z.div_pos; lia.
    - apply Z.div_lt_upper_bound; lia. }
  pose proof (format_02d_width _ Hh) as Lh.
  pose proof (format_02d_width ((total / 60) mod 60) ltac:(lia)) as Lm.
  pose proof (format_02d_width (total mod 60) ltac:(lia)) as Ls.
  destruct (PyStr.format_02d (total / 60 / 60)) as [| h1 [| h2 [| ? ?]]];
    try discriminate.
  destruct (PyStr.format_02d ((total / 60) mod 60)) as [| m1 [| m2 [| ? ?]]];
    try discriminate.
  destruct (PyStr.format_02d (total mod 60)) as [| s1 [| s2 [| ? ?]]];
    try discriminate.
  repeat split.
Qed.

End FormatTime.

Section FormatTimeExamples.

Lemma X2_witness :
  format_time (Example.seconds 3725 0) = inr "01:02:05"%string
  /\ String.length "01:02:05" = 8.
Proof.
  split; [reflexivity|].
  exact (proj1 (X2_format_time_width (Example.seconds 3725 0) 3725 "01:02:05"
                  eq_refl ltac:(lia) eq_refl)).
Defined.

End FormatTimeExamples.

(* ===================================================================== *)
(** * Transcript normaliser: further properties *)
(* ===================================================================== *)

Section NormaliserMore.

Variable vid : string.
Variable available_transcripts : list available.

(** The service calls of one iteration of the loop. *)
Lemma extract_loop_calls_cons i rest selected transcript_data :
  py_index available_transcripts i = inr selected ->
  snd (extract_loop vid available_transcripts (i :: rest) transcript_data)
  = snd (fetch_transcript i selected)
    ++ match rows_of vid selected (track_entries i selected) 0 with
       | inr block =>
           snd (extract_loop vid available_transcripts rest (transcript_data ++ block))
       | inl _ => []
       end.
Proof.
  intros Hi. cbn [extract_loop]. rewrite Hi. unfold track_entries.
  destruct (fetch_transcript i selected) as [got calls]. cbn [fst snd].
  assert (Hskip :
    snd (let (r, later) :=
           extract_loop vid available_transcripts rest transcript_data in
         (r, calls ++ later))
    = calls ++ match rows_of vid selected [] 0 with
               | inr block =>
                   snd (extract_loop vid available_transcripts rest
                          (transcript_data ++ block))
               | inl _ => []
               end).
  { cbn [rows_of ret]. rewrite app_nil_r.
    destruct (extract_loop vid available_transcripts rest transcript_data).
    reflexivity. }
  destruct got as [| [[| e es] |]]; cbn [falsy]; try exact Hskip.
  rewrite process_entries_rows_of.
  destruct (rows_of vid selected (e :: es) 0) as [x | block]; cbn [bind ret snd].
  - rewrite app_nil_r. reflexivity.
  - destruct (extract_loop vid available_transcripts rest (transcript_data ++ block)).
    reflexivity.
Qed.

(** The calls of the fetch block are the allowed ones, in their order. *)
Lemma fetch_transcript_allowed i selected :
  py_index available_transcripts i = inr selected ->
  snd (fetch_transcript i selected) = allowed_calls available_transcripts i.
Proof.
  intros Hi. unfold allowed_calls, fallback_due, fetch_transcript. rewrite Hi.
  destruct (t_fetch (a_transcript selected)) as [e | entries]; [|reflexivity].
  destruct (PyStr.contains signature (PyStr.lower (exn_str e))); [|reflexivity].
  cbn [andb].
  destruct (negb (String.eqb (lang selected) "en")); [|reflexivity].
  destruct (t_translate (a_transcript selected) "en") as [x | tr]; [reflexivity|].
  destruct (tr_fetch tr); reflexivity.
Qed.

Lemma in_firstn {A} (x : A) k l : In x (firstn k l) -> In x l.
Proof.
  intros H. rewrite <- (firstn_skipn k l). apply in_or_app. left. exact H.
Qed.

Lemma allowed_calls_justified selected_transcripts i c :
  In i selected_transcripts ->
  In c (allowed_calls available_transcripts i) ->
  call_justified available_transcripts selected_transcripts c.
Proof.
  intros Hsel. unfold allowed_calls.
  destruct (py_index available_transcripts i) as [x | selected] eqn:Hi;
    [intros []|].
  intros [<- | Hc]; [cbn; eauto|].
  destruct (fallback_due selected) eqn:Hdue; [|destruct Hc].
  destruct Hc as [<- | Hc]; [cbn; eauto|].
  destruct (t_translate (a_transcript selected) "en") as [x | tr] eqn:Ht;
    [destruct Hc|].
  destruct Hc as [<- | []]. cbn. split; [exact Hsel|]. exists selected, tr. auto.
Qed.

Lemma fetch_transcript_one_fetch i selected :
  filter is_fetch (snd (fetch_transcript i selected)) = [Fetch i].
Proof.
  unfold fetch_transcript.
  destruct (t_fetch (a_transcript selected)); [|reflexivity].
  destruct (PyStr.contains signature _); [|reflexivity].
  destruct (negb _); [|reflexivity].
  destruct (t_translate _ _) as [x | tr]; [reflexivity|].
  destruct (tr_fetch tr); reflexivity.
Qed.

(** X3: when every selected index is in range and every selected track is
    given up (its fetch and its fallback fail, or it has no entries), the
    loop ends without an exception and [extract_transcript] returns the
    empty list. *)
Theorem X3_all_tracks_skipped selected_transcripts :
  Forall (fun i => exists selected,
              py_index available_transcripts i = inr selected
              /\ track_entries i selected = [])
    selected_transcripts ->
  fst (extract_loop vid available_transcripts selected_transcripts []) = inr []
  /\ extract_transcript vid available_transcripts selected_transcripts = [].
Proof.
  intros Hall.
  assert (Hloop :
    fst (extract_loop vid available_transcripts selected_transcripts []) = inr []).
  { induction Hall as [| i rest [selected [Hi Hskip]] _ IH]; [reflexivity|].
    rewrite (extract_loop_skip vid available_transcripts i rest selected [] Hi Hskip).
    exact IH. }
  split; [exact Hloop|]. unfold extract_transcript. rewrite Hloop. reflexivity.
Qed.


(** Every row returned comes from an entry of a selected track. *)
Lemma extract_transcript_in selected_transcripts r :
  In r (extract_transcript vid available_transcripts selected_transcripts) ->
  exists i selected e k,
    In i selected_transcripts
    /\ py_index available_transcripts i = inr selected
    /\ In e (track_entries i selected)
    /\ make_row vid selected k e = inr r.
Proof.
  unfold extract_transcript.
  destruct (fst (extract_loop vid available_transcripts selected_transcripts []))
    as [x | rows] eqn:Hloop; [contradiction|].
  destruct (extract_loop_rows vid available_transcripts _ _ _ Hloop) as [-> Hall].
  cbn [app]. intros Hr. apply in_concat in Hr. destruct Hr as [blk [Hblk Hr]].
  apply in_map_iff in Hblk. destruct Hblk as [i [<- Hi]].
  rewrite Forall_forall in Hall.
  destruct (Hall i Hi) as [selected [block [Hsel [Hb Ht]]]].
  rewrite Ht in Hr.
  destruct (rows_of_in vid selected _ _ _ _ Hb Hr) as [e [k [He Hk]]].
  exists i, selected, e, k. auto.
Qed.

(** X5: every row returned carries the video id that was passed in, and
    the language code, the language name and the caption type of one of the
    selected tracks; the caption type is ["Auto-generated"] for a generated
    track and ["Manual"] otherwise, also when the entries came through the
    English translation. *)
Theorem X5_row_provenance selected_transcripts :
  Forall (fun r =>
            video_id r = vid
            /\ exists i selected,
                In i selected_transcripts
                /\ py_index available_transcripts i = inr selected
                /\ language r = lang selected
                /\ language_name r = a_language_name selected
                /\ caption_type r
                   = (if is_generated selected then "Auto-generated" else "Manual"))
    (extract_transcript vid available_transcripts selected_transcripts).
Proof.
  rewrite Forall_forall. intros r Hr.
  destruct (extract_transcript_in _ _ Hr) as (i & selected & e & k & Hi & Hsel & _ & Hk).
  apply make_row_inv in Hk.
  destruct Hk as (? & ? & ? & ? & ? & _ & _ & _ & _ & _ & ->).
  split; [reflexivity|]. exists i, selected. cbn. auto.
Qed.

(** X7: the log of the calls that [extract_transcript] makes on the
    caption service is, index after index for a prefix of the selection
    (the whole selection when the loop ends normally), the fetch of the
    track, followed by the translation to English only when the fallback is
    due (the fetch raised with the signature and the language code is not
    ["en"]), followed by the fetch of the translated track only when that
    translation returned.  So every call is made for a selected index,
    [translate] is only ever asked for English and only when the fallback
    is due, and a translated track is only fetched right after such a
    translation returned. *)
Theorem X7_service_calls_justified selected_transcripts :
  exists k,
    k <= List.length selected_transcripts
    /\ extract_calls vid available_transcripts selected_transcripts
       = flat_map (allowed_calls available_transcripts)
           (firstn k selected_transcripts)
    /\ Forall (fun i => exists selected,
                   py_index available_transcripts i = inr selected)
         (firstn k selected_transcripts)
    /\ (forall rows,
           fst (extract_loop vid available_transcripts selected_transcripts [])
           = inr rows ->
           k = List.length selected_transcripts)
    /\ Forall (call_justified available_transcripts selected_transcripts)
         (extract_calls vid available_transcripts selected_transcripts).
Proof.
  assert (Hshape : forall transcript_data,
    exists k,
      k <= List.length selected_transcripts
      /\ snd (extract_loop vid available_transcripts selected_transcripts
                transcript_data)
         = flat_map (allowed_calls available_transcripts)
             (firstn k selected_transcripts)
      /\ Forall (fun i => exists selected,
                     py_index available_transcripts i = inr selected)
           (firstn k selected_transcripts)
      /\ (forall rows,
             fst (extract_loop vid available_transcripts selected_transcripts
                    transcript_data) = inr rows ->
             k = List.length selected_transcripts)).
  { induction selected_transcripts as [| i rest IH]; intros transcript_data.
    - exists 0. cbn. split; [lia|]. split; [reflexivity|].
      split; [constructor | intros; reflexivity].
    - destruct (py_index available_transcripts i) as [x | selected] eqn:Hi.
      + rewrite (extract_loop_index_error vid available_transcripts i rest _ x Hi).
        exists 0. cbn. split; [lia|]. split; [reflexivity|].
        split; [constructor | discriminate].
      + rewrite (extract_loop_calls_cons i rest selected transcript_data Hi),
          (extract_loop_cons vid available_transcripts i rest selected
             transcript_data Hi),
          (fetch_transcript_allowed i selected Hi).
        destruct (rows_of vid selected (track_entries i selected) 0) as [x | block].
        * exists 1. cbn [List.length firstn flat_map bind]. split; [lia|].
          split; [reflexivity|].
          split; [constructor; [eauto | constructor] | discriminate].
        * destruct (IH (transcript_data ++ block)) as [k [Hk [Hc [Hin Hend]]]].
          exists (S k). cbn [List.length firstn flat_map bind]. split; [lia|].
          split; [rewrite Hc; reflexivity|].
          split; [constructor; [eauto | exact Hin]|].
          intros rows Hrows. f_equal. eapply Hend. exact Hrows. }
  destruct (Hshape []) as [k [Hk [Hc [Hin Hend]]]].
  exists k. split; [exact Hk|]. split; [exact Hc|]. split; [exact Hin|].
  split; [exact Hend|].
  unfold extract_calls in *. rewrite Hc, Forall_forall. intros c Hcall.
  apply in_flat_map in Hcall. destruct Hcall as [i [Hi Hcall]].
  apply (allowed_calls_justified selected_transcripts i c);
    [eapply in_firstn; exact Hi | exact Hcall].
Qed.

(** X8: the tracks are fetched one after the other in the order of the
    selection, each selected index once: the direct fetches in the log of
    calls are those of a prefix of the selection, and of the whole
    selection when the loop ends normally. *)
Theorem X8_fetches_in_selection_order selected_transcripts :
  exists k,
    k <= List.length selected_transcripts
    /\ filter is_fetch (extract_calls vid available_transcripts selected_transcripts)
       = map Fetch (firstn k selected_transcripts)
    /\ (forall rows,
           fst (extract_loop vid available_transcripts selected_transcripts [])
           = inr rows ->
           k = List.length selected_transcripts).
Proof.
  unfold extract_calls. generalize (@nil row) as transcript_data.
  induction selected_transcripts as [| i rest IH]; intros transcript_data.
  - exists 0. cbn. split; [lia|]. split; [reflexivity|]. intros; reflexivity.
  - destruct (py_index available_transcripts i) as [x | selected] eqn:Hi.
    + rewrite (extract_loop_index_error vid available_transcripts i rest _ x Hi).
      exists 0. cbn. split; [lia|]. split; [reflexivity|]. discriminate.
    + rewrite (extract_loop_calls_cons i rest selected transcript_data Hi),
        (extract_loop_cons vid available_transcripts i rest selected transcript_data Hi),
        filter_app, fetch_transcript_one_fetch.
      destruct (rows_of vid selected (track_entries i selected) 0) as [x | block].
      * exists 1. cbn. split; [lia|]. split; [reflexivity|]. discriminate.
      * destruct (IH (transcript_data ++ block)) as [k [Hk [Hf Hend]]].
        exists (S k). cbn [List.length firstn map app bind]. split; [lia|].
        split; [rewrite Hf; reflexivity|].
        intros rows Hrows. f_equal. eapply Hend. exact Hrows.
Qed.

End NormaliserMore.

Section RowText.

Import PyStr.
Local Open Scope string_scope.

Lemma rstrip_fixed t :
  (forall d, get (String.length t - 1) t = Some d -> isspace d = false) ->
  rstrip t = t.
Proof.
  induction t as [| c s IH]; intros Hlast; [reflexivity|].
  cbn [rstrip]. destruct s as [| a u].
  - cbn. rewrite (Hlast c eq_refl). reflexivity.
  - rewrite IH; [reflexivity|].
    intros d Hd. apply Hlast.
    cbn [String.length Nat.sub] in *. rewrite ?Nat.sub_0_r in *.
    cbn [get]. exact Hd.
Qed.

(** A text without white space at its ends is left alone by [strip]. *)
Lemma strip_trimmed t : trimmed t = true -> strip t = t.
Proof.
  unfold trimmed, strip. destruct t as [| c s]; [reflexivity|].
  intros H. apply andb_prop in H. destruct H as [Hc Hl].
  apply negb_true_iff in Hc. cbn [lstrip]. rewrite Hc.
  apply rstrip_fixed. intros d Hd. rewrite Hd in Hl.
  apply negb_true_iff in Hl. exact Hl.
Qed.

(** X6: the text of every row returned by [extract_transcript] neither
    begins nor ends with white space, so stripping it again changes
    nothing. *)
Theorem X6_row_text_trimmed vid available_transcripts selected_transcripts :
  Forall (fun r => trimmed (text r) = true /\ strip (text r) = text r)
    (extract_transcript vid available_transcripts selected_transcripts).
Proof.
  rewrite Forall_forall. intros r Hr.
  destruct (extract_transcript_in _ _ _ _ Hr)
    as (i & selected & e & k & _ & _ & _ & Hk).
  apply make_row_inv in Hk.
  destruct Hk as (? & raw & ? & ? & ? & _ & _ & _ & _ & _ & ->).
  cbn [text].
  destruct (strip_spec raw) as [l [t [_ [_ [_ Htrim]]]]].
  split; [exact Htrim | apply strip_trimmed; exact Htrim].
Qed.

End RowText.

Section NormaliserMoreExamples.

Import Example.

Lemma X3_witness :
  extract_transcript "abc123" available_transcripts [2; 3; 2]%Z = [].
Proof.
  apply (X3_all_tracks_skipped "abc123" available_transcripts [2; 3; 2]%Z).
  repeat constructor.
  - exists fr_disabled. split; reflexivity.
  - exists en_empty. split; reflexivity.
  - exists fr_disabled. split; reflexivity.
Defined.


End NormaliserMoreExamples.

(* ===================================================================== *)
(** * Video ID extractor: further properties *)
(* ===================================================================== *)

Section VideoIdMore.

Import PyStr.
Local Open Scope string_scope.

Lemma append_assoc (a b c : string) : (a ++ b) ++ c = a ++ b ++ c.
Proof. induction a as [| x a IH]; cbn; [reflexivity | rewrite IH; reflexivity]. Qed.

Lemma take_drop n s : s = take n s ++ drop n s.
Proof.
  revert s. induction n as [| n IH]; intros s; [reflexivity|].
  destruct s as [| c s]; [reflexivity|]. cbn. f_equal. apply IH.
Qed.

Lemma upto_first_prefix m s : exists post, s = upto_first m s ++ post.
Proof.
  unfold upto_first. destruct (find m s) as [i |].
  - exists (drop i s). apply take_drop.
  - exists EmptyString. clear. induction s as [| c s IH]; cbn; [reflexivity|].
    rewrite <- IH. reflexivity.
Qed.

Lemma after_first_suffix m s rest :
  after_first m s = Some rest -> exists pre, s = pre ++ rest.
Proof.
  unfold after_first. destruct (find m s) as [i |]; [|discriminate].
  intros H. injection H as <-. exists (take (i + String.length m) s). apply take_drop.
Qed.

(** The two-step cut returns a piece of the text. *)
Lemma cut_is_piece opening closing url rest :
  after_first opening url = Some rest ->
  exists pre post,
    url = pre ++ upto_first closing (upto_first opening rest) ++ post.
Proof.
  intros Hrest.
  destruct (after_first_suffix _ _ _ Hrest) as [pre Hpre].
  destruct (upto_first_prefix opening rest) as [p1 H1].
  destruct (upto_first_prefix closing (upto_first opening rest)) as [p2 H2].
  exists pre, (p2 ++ p1).
  rewrite <- (append_assoc (upto_first closing (upto_first opening rest)) p2 p1),
    <- H2, <- H1.
  exact Hpre.
Qed.

(** X9: the result of [extract_video_id] is always a piece of the input:
    the input is some text, then the result, then some text.  Nothing is
    added, replaced or decoded. *)
Theorem X9_video_id_is_piece_of_url url :
  exists pre post, url = pre ++ extract_video_id url ++ post.
Proof.
  unfold extract_video_id.
  destruct (contains "v=" url) eqn:Hv.
  - destruct (contains_after_first _ _ Hv) as [rest Hrest].
    rewrite (extract_video_id_try_v url rest Hrest).
    apply (cut_is_piece "v=" "&" url rest Hrest).
  - destruct (contains "youtu.be/" url) eqn:Hs.
    + destruct (contains_after_first _ _ Hs) as [rest Hrest].
      rewrite (extract_video_id_try_short url rest Hv Hrest).
      apply (cut_is_piece "youtu.be/" "?" url rest Hrest).
    + unfold extract_video_id_try. rewrite Hv, Hs. cbn [ret].
      exists EmptyString, EmptyString. cbn.
      clear. induction url as [| c s IH]; cbn; [reflexivity|].
      rewrite <- IH. reflexivity.
Qed.

Lemma contains_of_take m n s :
  contains m (take n s) = true -> contains m s = true.
Proof.
  revert n. induction s as [| c s IH]; intros n H.
  - destruct n; exact H.
  - destruct n as [| n].
    + cbn in H. destruct (startswith m EmptyString) eqn:Hm; [|discriminate].
      destruct m; [reflexivity | discriminate].
    + cbn [take contains] in *.
      destruct (startswith m (String c (take n s))) eqn:Hp.
      * apply (startswith_of_take m (String c s) (S n)) in Hp. rewrite Hp. reflexivity.
      * apply IH in H. rewrite H.
        destruct (startswith m (String c s)); reflexivity.
Qed.

Lemma drop_take j i s : drop j (take i s) = take (i - j) (drop j s).
Proof.
  revert i s. induction j as [| j IH]; intros i s.
  - rewrite Nat.sub_0_r. reflexivity.
  - destruct i as [| i]; destruct s as [| c s]; cbn [take drop Nat.sub];
      try reflexivity.
    + destruct (i - j); reflexivity.
    + apply IH.
Qed.

Lemma drop_take_ge j i s : i <= j -> drop j (take i s) = EmptyString.
Proof.
  intros H. rewrite drop_take. replace (i - j) with 0 by lia.
  destruct (drop j s); reflexivity.
Qed.

(** Before the first occurrence of a marker there is no occurrence. *)
Lemma upto_first_free m s :
  m <> EmptyString -> contains m (upto_first m s) = false.
Proof.
  intros Hm. unfold upto_first.
  destruct (find m s) as [i |] eqn:Hf.
  - destruct (contains m (take i s)) eqn:Hc; [|reflexivity]. exfalso.
    rewrite contains_find in Hc.
    destruct (find m (take i s)) as [j |] eqn:Hj; [|discriminate].
    pose proof (find_startswith _ _ _ Hj) as Hp.
    destruct (find_some _ _ _ Hf) as [_ Hfirst].
    destruct (Nat.lt_ge_cases j i) as [Hlt | Hge].
    + specialize (Hfirst j Hlt).
      rewrite drop_take in Hp. apply startswith_of_take in Hp. congruence.
    + rewrite drop_take_ge in Hp by assumption.
      destruct m; [congruence | discriminate].
  - rewrite contains_find, Hf. reflexivity.
Qed.

Lemma upto_first_free_inner m c s :
  m <> EmptyString -> contains m (upto_first c (upto_first m s)) = false.
Proof.
  intros Hm.
  destruct (contains m (upto_first c (upto_first m s))) eqn:Hc; [|reflexivity].
  unfold upto_first at 1 in Hc.
  destruct (find c (upto_first m s)).
  - apply contains_of_take in Hc. rewrite upto_first_free in Hc by assumption.
    discriminate.
  - rewrite upto_first_free in Hc by assumption. discriminate.
Qed.

(** X10: the result never holds the separator that ends it nor a further
    marker: for an input with ["v="] it contains neither ["&"] nor ["v="];
    for an input without ["v="] but with ["youtu.be/"] it contains neither
    ["?"] nor ["youtu.be/"]. *)
Theorem X10_video_id_has_no_separator url :
  (contains "v=" url = true ->
   contains "&" (extract_video_id url) = false
   /\ contains "v=" (extract_video_id url) = false)
  /\ (contains "v=" url = false -> contains "youtu.be/" url = true ->
      contains "?" (extract_video_id url) = false
      /\ contains "youtu.be/" (extract_video_id url) = false).
Proof.
  unfold extract_video_id. split.
  - intros Hv. destruct (contains_after_first _ _ Hv) as [rest Hrest].
    rewrite (extract_video_id_try_v url rest Hrest). cbn [ret]. split.
    + apply upto_first_free. discriminate.
    + apply upto_first_free_inner. discriminate.
  - intros Hv Hs. destruct (contains_after_first _ _ Hs) as [rest Hrest].
    rewrite (extract_video_id_try_short url rest Hv Hrest). cbn [ret]. split.
    + apply upto_first_free. discriminate.
    + apply upto_first_free_inner. discriminate.
Qed.

Lemma X10_witness :
  contains "&" (extract_video_id "https://www.youtube.com/watch?v=abc123&t=5&v=x")
  = false
  /\ contains "?" (extract_video_id "https://youtu.be/abc123?t=5") = false.
Proof.
  split.
  - apply (proj1 (X10_video_id_has_no_separator
                    "https://www.youtube.com/watch?v=abc123&t=5&v=x")). reflexivity.
  - apply (proj2 (X10_video_id_has_no_separator "https://youtu.be/abc123?t=5"));
      reflexivity.
Defined.

End VideoIdMore.

(* ===================================================================== *)
(** * Caption catalogue lookup: further properties *)
(* ===================================================================== *)

Section CatalogueMore.

Lemma partition_permutation {A} (f : A -> bool) (l : list A) :
  Permutation (filter (fun x => negb (f x)) l ++ filter f l) l.
Proof.
  induction l as [| a l IH]; [constructor|].
  cbn [filter]. destruct (f a); cbn [negb].
  - symmetry. apply Permutation_cons_app. symmetry. exact IH.
  - cbn. constructor. exact IH.
Qed.

(** X11: when the service answers, the two lists of the lookup together
    hold every track of the service exactly once: nothing is lost and
    nothing is doubled.  Every entry of the first list is labelled
    ["Manual"], every entry of the second ["Auto-generated"]. *)
Theorem X11_catalogue_complete list_transcripts vid transcript_list :
  list_transcripts vid = inr transcript_list ->
  let (manual_captions, auto_captions) :=
    check_available_captions list_transcripts vid in
  Permutation (manual_captions ++ auto_captions)
    (map caption_info_of transcript_list)
  /\ List.length manual_captions + List.length auto_captions
     = List.length transcript_list
  /\ Forall (fun info => ci_type info = "Manual") manual_captions
  /\ Forall (fun info => ci_type info = "Auto-generated") auto_captions.
Proof.
  intros Hl. unfold check_available_captions. rewrite Hl.
  rewrite sort_captions_spec. cbn [app].
  assert (Hperm :
    Permutation
      (map caption_info_of (filter (fun t => negb (t_is_generated t)) transcript_list)
       ++ map caption_info_of (filter t_is_generated transcript_list))
      (map caption_info_of transcript_list)).
  { rewrite <- map_app. apply Permutation_map, partition_permutation. }
  split; [exact Hperm|]. split.
  - apply Permutation_length in Hperm.
    rewrite length_app, !length_map in Hperm. rewrite !length_map. exact Hperm.
  - split; rewrite Forall_forall; intros info Hin;
      apply in_map_iff in Hin; destruct Hin as [t [<- Ht]];
      apply filter_In in Ht; destruct Ht as [_ Hg]; cbn.
    + destruct (t_is_generated t); [discriminate | reflexivity].
    + rewrite Hg. reflexivity.
Qed.

Lemma X11_witness :
  List.length (fst (check_available_captions Example.list_transcripts "abc123"))
  + List.length (snd (check_available_captions Example.list_transcripts "abc123"))
  = 3.
Proof.
  pose proof (X11_catalogue_complete Example.list_transcripts "abc123" _ eq_refl) as H.
  destruct (check_available_captions Example.list_transcripts "abc123")
    as [manual_captions auto_captions].
  destruct H as [_ [Hlen _]]. exact Hlen.
Defined.

End CatalogueMore.

(* ===================================================================== *)
(** * Export formatter: further properties *)
(* ===================================================================== *)

Section ExportMore.

Import PyStr.
Local Open Scope string_scope.

Variable order : set_order.

Lemma rectangular_map (names : list string) (f : row -> list cell)
    (transcript_data : list row) :
  (forall item, List.length (f item) = List.length names) ->
  rectangular {| columns := names; records := map f transcript_data |} = true.
Proof.
  intros Hf. unfold rectangular. cbn [columns records].
  apply forallb_forall. intros record Hin.
  apply in_map_iff in Hin. destruct Hin as [item [<- _]].
  apply Nat.eqb_eq, Hf.
Qed.

(** X12: for a row list that is not empty exactly three downloads are
    offered, with three different widget keys and three different file
    names, all of type [text/csv]; each of the three frames has one record
    per row and every record has one cell per column. *)
Theorem X12_three_rectangular_tables transcript_data video_title stamps :
  transcript_data <> [] ->
  let offered :=
    payloads (save_transcript_options order transcript_data video_title stamps) in
  map key offered
  = ["download_full_csv"; "download_simple_csv"; "download_timeline_csv"]
  /\ NoDup (map file_name offered)
  /\ Forall (fun d => mime d = "text/csv"
                      /\ rectangular (data d) = true
                      /\ List.length (records (data d)) = List.length transcript_data)
       offered.
Proof.
  intros Hne. destruct transcript_data as [| r rest]; [congruence|].
  destruct stamps as [[stamp1 stamp2] stamp3].
  cbn [save_transcript_options payloads].
  split; [reflexivity|]. split.
  - cbn [map file_name]. unfold filename. cbn [append].
    apply NoDup_cons; [intros [H | [H | []]]; discriminate H|].
    apply NoDup_cons; [intros [H | []]; discriminate H|].
    apply NoDup_cons; [intros [] | constructor].
  - apply Forall_cons; [|apply Forall_cons; [|apply Forall_cons; [|apply Forall_nil]]];
      cbn [mime data records columns];
      (split; [reflexivity|]);
      (split; [apply rectangular_map; intros item; reflexivity
              | rewrite length_map; reflexivity]).
Qed.

(** X13: in all three frames the column [text] holds the texts of the rows,
    in the order of the rows.  The column [language] holds the language
    code in the full frame, and the language name in the simple and in the
    timeline frame. *)
Theorem X13_text_and_language_columns transcript_data video_title stamps :
  transcript_data <> [] ->
  exists full simple timeline,
    payloads (save_transcript_options order transcript_data video_title stamps)
    = [full; simple; timeline]
    /\ Forall (fun d =>
                 map (fun record => cell_of (columns (data d)) record "text")
                   (records (data d))
                 = map (fun item => Some (CStr (text item))) transcript_data)
         [full; simple; timeline]
    /\ map (fun record => cell_of (columns (data full)) record "language")
         (records (data full))
       = map (fun item => Some (CStr (language item))) transcript_data
    /\ Forall (fun d =>
                 map (fun record => cell_of (columns (data d)) record "language")
                   (records (data d))
                 = map (fun item => Some (CStr (language_name item))) transcript_data)
         [simple; timeline].
Proof.
  intros Hne. destruct transcript_data as [| r rest]; [congruence|].
  destruct stamps as [[stamp1 stamp2] stamp3].
  cbn [save_transcript_options payloads].
  eexists. eexists. eexists. split; [reflexivity|].
  cbn [data records columns].
  split; [|split].
  - apply Forall_cons; [|apply Forall_cons; [|apply Forall_cons; [|apply Forall_nil]]];
      cbn [data records columns]; rewrite map_map; reflexivity.
  - rewrite map_map. reflexivity.
  - apply Forall_cons; [|apply Forall_cons; [|apply Forall_nil]];
      cbn [data records columns]; rewrite map_map; reflexivity.
Qed.

Lemma contains_char_replace (a b : ascii) s :
  a <> b -> contains (String a EmptyString) (replace_char a b s) = false.
Proof.
  intros Hab. induction s as [| c s IH]; [reflexivity|].
  cbn [replace_char contains startswith].
  destruct (Ascii.eqb_spec c a) as [-> | Hca].
  - destruct (Ascii.eqb_spec a b); [contradiction | exact IH].
  - destruct (Ascii.eqb_spec a c) as [<- |]; [contradiction | exact IH].
Qed.

(** X14: the title part of the file names holds no space, whatever the
    title, and is a piece of at most 50 characters. *)
Theorem X14_title_slug_has_no_space video_title :
  contains " " (video_title_clean video_title) = false
  /\ String.length (video_title_clean video_title) <= 50.
Proof.
  unfold video_title_clean. split.
  - destruct (contains " " (take 50 (replace_char " " "_" video_title))) eqn:Hc;
      [|reflexivity].
    apply contains_of_take in Hc.
    rewrite contains_char_replace in Hc by discriminate. discriminate.
  - rewrite length_take. lia.
Qed.

End ExportMore.

Section ExportMoreExamples.

Import Example.
Local Open Scope string_scope.

Lemma X12_witness :
  map key
    (payloads (save_transcript_options last_occurrence_order
                 [row_in "en"; row_in "es"] "My video title" ("s", "s", "s")))
  = ["download_full_csv"; "download_simple_csv"; "download_timeline_csv"].
Proof.
  exact (proj1 (X12_three_rectangular_tables last_occurrence_order
                  [row_in "en"; row_in "es"] "My video title" ("s", "s", "s")
                  ltac:(discriminate))).
Defined.

Lemma X13_witness :
  exists full simple timeline,
    payloads (save_transcript_options last_occurrence_order
                [row_in "en"; row_in "es"] "My video title" ("s", "s", "s"))
    = [full; simple; timeline]
    /\ map (fun record => cell_of (columns (data full)) record "language")
         (records (data full))
       = [Some (CStr "en"); Some (CStr "es")].
Proof.
  destruct (X13_text_and_language_columns last_occurrence_order
              [row_in "en"; row_in "es"] "My video title" ("s", "s", "s")
              ltac:(discriminate))
    as (full & simple & timeline & Hp & _ & Hl & _).
  exists full, simple, timeline. split; [exact Hp | exact Hl].
Defined.

End ExportMoreExamples.

(* ===================================================================== *)
(** * The page script: properties *)
(* ===================================================================== *)

Section Page.

Local Open Scope string_scope.

Lemma reset_current vid s : s_current_video_id (reset_if_changed vid s) = vid.
Proof.
  unfold reset_if_changed.
  destruct (String.eqb_spec (s_current_video_id s) vid) as [H | H];
    [exact H | reflexivity].
Qed.

Lemma reset_ok vid s : session_ok s = true -> session_ok (reset_if_changed vid s) = true.
Proof.
  unfold reset_if_changed. destruct (String.eqb (s_current_video_id s) vid);
    [trivial | reflexivity].
Qed.

Lemma check_clicked_keeps first_listing second_listing vid s :
  s_extracted_data (check_captions_clicked first_listing second_listing vid s)
  = s_extracted_data s
  /\ s_current_video_id (check_captions_clicked first_listing second_listing vid s)
     = s_current_video_id s.
Proof.
  unfold check_captions_clicked.
  destruct (check_available_captions first_listing vid) as [manual_caps auto_caps].
  destruct (truthy manual_caps || truthy auto_caps); [|split; reflexivity].
  destruct (second_listing vid); split; reflexivity.
Qed.

(** The rows of an extraction belong to its video and have an end that
    [int()] accepts. *)
Lemma extract_transcript_ok vid available_transcripts options r :
  In r (extract_transcript vid available_transcripts options) ->
  video_id r = vid /\ finite_end r = true.
Proof.
  intros Hr.
  destruct (extract_transcript_in _ _ _ _ Hr)
    as (i & selected & e & k & _ & _ & _ & Hk).
  apply make_row_inv in Hk.
  destruct Hk as (start & ? & ? & end_stamp & ? & _ & _ & _ & Hend & _ & ->).
  split; [reflexivity|]. unfold finite_end. cbn [end_time_seconds].
  unfold format_time in Hend. apply bind_ret_inv in Hend.
  destruct Hend as [z [Hz _]]. rewrite Hz. reflexivity.
Qed.

Lemma extract_clicked_ok vid options s :
  s_current_video_id s = vid ->
  session_ok s = true -> session_ok (extract_clicked vid options s) = true.
Proof.
  intros Hvid Hok. unfold extract_clicked.
  destruct (truthy (extract_transcript vid (s_available_transcripts s) options));
    [|exact Hok].
  unfold session_ok. cbn [s_extracted_data s_current_video_id].
  apply forallb_forall. intros r Hr.
  destruct (extract_transcript_ok _ _ _ _ Hr) as [Hv Hf].
  rewrite Hv, Hvid, String.eqb_refl, Hf. reflexivity.
Qed.

(** One run of the script keeps [session_ok]. *)
Lemma main_keeps_ok order stamps first_listing second_listing c s :
  session_ok s = true ->
  session_ok (fst (main order stamps first_listing second_listing c s)) = true.
Proof.
  intros Hok. unfold main.
  destruct (truthy_str (video_url c)); [|exact Hok]. cbn [fst].
  set (vid := extract_video_id (video_url c)).
  pose proof (reset_ok vid s Hok) as H1.
  pose proof (reset_current vid s) as C1.
  set (s1 := reset_if_changed vid s) in *.
  assert (H2 : session_ok
                 (if check_captions c
                  then check_captions_clicked first_listing second_listing vid s1
                  else s1) = true
               /\ s_current_video_id
                    (if check_captions c
                     then check_captions_clicked first_listing second_listing vid s1
                     else s1) = vid).
  { destruct (check_captions c); [|split; assumption].
    destruct (check_clicked_keeps first_listing second_listing vid s1) as [Hd Hc].
    split; [|rewrite Hc; exact C1].
    unfold session_ok in *. rewrite Hd, Hc. exact H1. }
  destruct H2 as [H2 C2].
  set (s2 := if check_captions c
             then check_captions_clicked first_listing second_listing vid s1
             else s1) in *.
  destruct (truthy (s_available_transcripts s2)); [|exact H2].
  destruct (truthy (selected_options c)); [|exact H2].
  destruct (extract_button c); [|exact H2].
  apply extract_clicked_ok; assumption.
Qed.

Lemma reachable_ok s : reachable s -> session_ok s = true.
Proof.
  intros Hreach.
  induction Hreach as [| order stamps first_listing second_listing c s _ IH];
    [reflexivity | apply main_keeps_ok; exact IH].
Qed.

(** X15: in every session that runs of the script can reach, whatever the
    user clicks and whatever the service answers, each stored row belongs to
    the current video id and has an end that [int()] accepts: rows of a
    previous video are never kept. *)
Theorem X15_session_rows_belong_to_current_video s :
  reachable s ->
  Forall (fun r => video_id r = s_current_video_id s /\ finite_end r = true)
    (s_extracted_data s).
Proof.
  intros Hreach. pose proof (reachable_ok s Hreach) as Hok.
  unfold session_ok in Hok. rewrite forallb_forall in Hok.
  rewrite Forall_forall. intros r Hr. specialize (Hok r Hr).
  apply andb_prop in Hok. destruct Hok as [Hv Hf].
  apply String.eqb_eq in Hv. auto.
Qed.

Lemma max_from_in best l : In (max_from best l) (best :: l).
Proof.
  revert best. induction l as [| x rest IH]; intros best; [left; reflexivity|].
  cbn [max_from].
  destruct (IH (if SFltb best x then x else best)) as [H | H].
  - destruct (SFltb best x); [right; left | left]; exact H.
  - right. right. exact H.
Qed.

Lemma show_extracted_returns order stamps vid s :
  session_ok s = true ->
  show_extracted order stamps vid s
  = ret (if truthy (s_extracted_data s)
         then save_transcript_options order (s_extracted_data s)
                ("video_" ++ vid) stamps
         else []).
Proof.
  intros Hok. unfold show_extracted.
  destruct (s_extracted_data s) as [| r rest] eqn:Hd; [reflexivity|].
  cbn [truthy map py_max bind ret].
  assert (Hin : exists r', In r' (r :: rest)
                           /\ max_from (end_time_seconds r) (map end_time_seconds rest)
                              = end_time_seconds r').
  { pose proof (max_from_in (end_time_seconds r) (map end_time_seconds rest)) as H.
    change (end_time_seconds r :: map end_time_seconds rest)
      with (map end_time_seconds (r :: rest)) in H.
    apply in_map_iff in H. destruct H as [r' [Hr' Hin]]. exists r'. auto. }
  destruct Hin as [r' [Hin ->]].
  unfold session_ok in Hok. rewrite Hd, forallb_forall in Hok.
  specialize (Hok r' Hin). apply andb_prop in Hok. destruct Hok as [_ Hf].
  unfold finite_end in Hf. unfold format_time.
  destruct (PyFloat.to_int (end_time_seconds r')); [discriminate | reflexivity].
Qed.

(** X16: in a session that the script can reach, a run never ends with an
    exception: [max] and [format_time] on the stored rows return, and the
    run offers the downloads of the stored rows under the title
    [video_<id>] when there are rows, and nothing otherwise. *)
Theorem X16_run_never_raises order stamps first_listing second_listing c s :
  reachable s ->
  snd (main order stamps first_listing second_listing c s)
  = ret (if truthy_str (video_url c)
         then if truthy (s_extracted_data
                           (fst (main order stamps first_listing second_listing c s)))
              then save_transcript_options order
                     (s_extracted_data
                        (fst (main order stamps first_listing second_listing c s)))
                     ("video_" ++ extract_video_id (video_url c)) stamps
              else []
         else []).
Proof.
  intros Hreach.
  pose proof (main_keeps_ok order stamps first_listing second_listing c s
                (reachable_ok s Hreach)) as Hok.
  revert Hok. unfold main.
  destruct (truthy_str (video_url c)); [|reflexivity]. cbn [fst snd].
  apply show_extracted_returns.
Qed.

(** X17: a run replaces the stored rows only by the rows of an extraction
    that returned some: unless the video id changes, an extraction that
    returns nothing (every track failed, or an exception was raised) leaves
    the rows of the previous extraction in place.  After a run with a URL
    the current video id is the one extracted from the URL; a run without a
    URL changes nothing. *)
Theorem X17_rows_replaced_only_by_rows order stamps first_listing second_listing c s :
  let s' := fst (main order stamps first_listing second_listing c s) in
  (truthy_str (video_url c) = false -> s' = s)
  /\ (truthy_str (video_url c) = true ->
      s_current_video_id s' = extract_video_id (video_url c)
      /\ (s_extracted_data s' = s_extracted_data (reset_if_changed
                                                   (extract_video_id (video_url c)) s)
          \/ (extract_button c = true
              /\ s_extracted_data s' <> []
              /\ s_extracted_data s'
                 = extract_transcript (extract_video_id (video_url c))
                     (s_available_transcripts s') (selected_options c)))).
Proof.
  unfold main. destruct (truthy_str (video_url c)); cbn [fst];
    (split; [intros H; try discriminate; reflexivity|]); intros H; try discriminate.
  set (vid := extract_video_id (video_url c)).
  pose proof (reset_current vid s) as C1.
  set (s1 := reset_if_changed vid s) in *.
  assert (H2 : s_extracted_data
                 (if check_captions c
                  then check_captions_clicked first_listing second_listing vid s1
                  else s1) = s_extracted_data s1
               /\ s_current_video_id
                    (if check_captions c
                     then check_captions_clicked first_listing second_listing vid s1
                     else s1) = vid).
  { destruct (check_captions c); [|split; [reflexivity | exact C1]].
    destruct (check_clicked_keeps first_listing second_listing vid s1) as [Hd Hc].
    split; [exact Hd | rewrite Hc; exact C1]. }
  destruct H2 as [D2 C2].
  set (s2 := if check_captions c
             then check_captions_clicked first_listing second_listing vid s1
             else s1) in *.
  destruct (truthy (s_available_transcripts s2)); [|split; [exact C2 | left; exact D2]].
  destruct (truthy (selected_options c)); [|split; [exact C2 | left; exact D2]].
  destruct (extract_button c); [|split; [exact C2 | left; exact D2]].
  unfold extract_clicked.
  destruct (extract_transcript vid (s_available_transcripts s2) (selected_options c))
    as [| r rest] eqn:He; cbn [truthy].
  - split; [exact C2 | left; exact D2].
  - cbn [s_current_video_id s_extracted_data s_available_transcripts].
    split; [exact C2|]. right. split; [reflexivity|]. split; [discriminate|].
    symmetry. exact He.
Qed.

(** X18: a URL with another video id, in a run where the catalogue is not
    asked for, empties the session: the catalogue and the rows of the
    previous video are dropped, no extraction runs (the button is not even
    read) and no download is offered. *)
Theorem X18_new_video_clears_session order stamps first_listing second_listing c s :
  truthy_str (video_url c) = true ->
  String.eqb (s_current_video_id s) (extract_video_id (video_url c)) = false ->
  check_captions c = false ->
  main order stamps first_listing second_listing c s
  = ({| s_available_transcripts := [];
        s_extracted_data := [];
        s_current_video_id := extract_video_id (video_url c) |},
     ret []).
Proof.
  intros Hurl Hchanged Hcheck. unfold main, reset_if_changed.
  rewrite Hurl, Hchanged, Hcheck. reflexivity.
Qed.

End Page.

Section PageExamples.

Import PageExample.
Local Open Scope string_scope.

Lemma after_extract_reachable : reachable after_extract.
Proof.
  unfold after_extract, after_check, run.
  apply reachable_run, reachable_run, reachable_initial.
Qed.

Lemma X15_witness :
  map text (s_extracted_data after_extract) = ["Hello"; "world"; "hola"]
  /\ Forall (fun r => video_id r = "abc123" /\ finite_end r = true)
       (s_extracted_data after_extract).
Proof.
  split; [reflexivity|].
  exact (X15_session_rows_belong_to_current_video after_extract
           (reachable_run _ _ _ _ _ _ (reachable_run _ _ _ _ _ _ reachable_initial))).
Defined.

Lemma X16_witness :
  map file_name (match snd (run extract_run after_check) with
                 | inr calls => payloads calls
                 | inl _ => []
                 end)
  = ["full_transcript_en_es_video_abc123_20240131_235959.csv";
     "simple_transcript_en_es_video_abc123_20240131_235959.csv";
     "timeline_en_es_video_abc123_20240201_000000.csv"].
Proof.
  unfold run.
  rewrite (X16_run_never_raises last_occurrence_order stamps
             Example.list_transcripts Example.list_transcripts extract_run after_check
             (reachable_run _ _ _ _ _ _ reachable_initial)).
  reflexivity.
Defined.

Lemma X17_witness :
  s_extracted_data
    (fst (run {| video_url := "https://youtu.be/abc123?t=5";
                 check_captions := false;
                 selected_options := [2]%Z;
                 extract_button := true |} after_extract))
  = s_extracted_data after_extract.
Proof.
  destruct (X17_rows_replaced_only_by_rows last_occurrence_order stamps
              Example.list_transcripts Example.list_transcripts
              {| video_url := "https://youtu.be/abc123?t=5";
                 check_captions := false;
                 selected_options := [2]%Z;
                 extract_button := true |} after_extract) as [_ H].
  destruct (H eq_refl) as [_ [Hkept | [_ [Hrows Hnew]]]].
  - exact Hkept.
  - exfalso. apply Hrows. rewrite Hnew. reflexivity.
Defined.

Lemma X18_witness :
  run other_video_run after_extract
  = ({| s_available_transcripts := [];
        s_extracted_data := [];
        s_current_video_id := "xyz789" |}, ret []).
Proof.
  exact (X18_new_video_clears_session last_occurrence_order stamps
           Example.list_transcripts Example.list_transcripts
           other_video_run after_extract eq_refl eq_refl eq_refl).
Defined.

End PageExamples.

(* ===================================================================== *)
(** * When the extraction loses nothing *)
(* ===================================================================== *)

Section Complete.

Variable vid : string.
Variable available_transcripts : list available.

Lemma make_row_complete selected i e :
  entry_complete e = true -> exists r, make_row vid selected i e = inr r.
Proof.
  unfold entry_complete, make_row, format_time. intros H.
  destruct (e_start e) as [start |]; [|discriminate].
  destruct (e_text e) as [raw |]; [|discriminate].
  cbn [getitem bind ret].
  destruct (PyFloat.to_int start) as [x | z]; [discriminate|].
  destruct (PyFloat.to_int (add_number start _)) as [x | z']; [discriminate|].
  cbn [bind ret]. eauto.
Qed.

Lemma rows_of_complete selected entries i :
  forallb entry_complete entries = true ->
  exists block, rows_of vid selected entries i = inr block.
Proof.
  revert i. induction entries as [| e rest IH]; intros i H; cbn [rows_of].
  - eexists. reflexivity.
  - cbn [forallb] in H. apply andb_prop in H. destruct H as [He Hrest].
    destruct (make_row_complete selected i e He) as [r ->].
    destruct (IH (S i) Hrest) as [rs ->]. cbn. eauto.
Qed.

(** X19: when every selected index is in range and every entry that is
    normalised has a ['start'] and a ['text'] and a start and an end that
    [int()] accepts, no exception reaches the outer handler: the loop ends
    normally and [extract_transcript] returns the blocks of all selected
    tracks, so no row is lost. *)
Theorem X19_complete_entries_lose_nothing selected_transcripts :
  Forall (fun i => exists selected,
              py_index available_transcripts i = inr selected
              /\ forallb entry_complete (track_entries i selected) = true)
    selected_transcripts ->
  exists rows,
    fst (extract_loop vid available_transcripts selected_transcripts []) = inr rows
    /\ extract_transcript vid available_transcripts selected_transcripts = rows
    /\ rows = concat (map (track_rows vid available_transcripts) selected_transcripts).
Proof.
  intros Hall.
  assert (Hloop : forall transcript_data,
             exists rows,
               fst (extract_loop vid available_transcripts selected_transcripts
                      transcript_data) = inr rows).
  { induction Hall as [| i rest [selected [Hi Hc]] _ IH]; intros transcript_data.
    - eexists. reflexivity.
    - rewrite (extract_loop_cons vid available_transcripts i rest selected _ Hi).
      destruct (rows_of_complete selected _ 0 Hc) as [block ->]. cbn [bind].
      apply IH. }
  destruct (Hloop []) as [rows Hrows].
  exists rows. split; [exact Hrows|].
  split; [unfold extract_transcript; rewrite Hrows; reflexivity|].
  destruct (extract_loop_rows vid available_transcripts _ _ _ Hrows) as [H _].
  exact H.
Qed.

End Complete.

Section SingleLanguage.

Import PyStr.
Local Open Scope string_scope.

Variable order : set_order.

Lemma nodup_all_equal (code : string) (l : list string) :
  NoDup l -> In code l -> (forall x, In x l -> x = code) -> l = [code].
Proof.
  intros Hnd Hin Hall. destruct l as [| a l]; [contradiction|].
  assert (a = code) by (apply Hall; left; reflexivity). subst a.
  destruct l as [| b l]; [reflexivity|]. exfalso.
  assert (b = code) by (apply Hall; right; left; reflexivity). subst b.
  inversion Hnd as [| ? ? Hnotin _]. apply Hnotin. left. reflexivity.
Qed.

(** X20: when all rows are in one language, the language part of the file
    names is the code of that language, whatever the iteration order of the
    set and however many rows there are. *)
Theorem X20_single_language_file_names transcript_data code video_title stamp :
  transcript_data <> [] ->
  Forall (fun r => language r = code) transcript_data ->
  language_str order transcript_data = code
  /\ filename "full_transcript" order transcript_data video_title stamp
     = "full_transcript_" ++ code ++ "_" ++ video_title_clean video_title
       ++ "_" ++ stamp ++ ".csv".
Proof.
  intros Hne Hall.
  assert (Hcodes : languages order transcript_data = [code]).
  { unfold languages. apply nodup_all_equal.
    - apply elements_nodup.
    - rewrite elements_in. destruct transcript_data as [| r rest]; [congruence|].
      inversion Hall as [| ? ? Hr _]. left. exact Hr.
    - intros x Hx. rewrite elements_in in Hx. apply in_map_iff in Hx.
      destruct Hx as [r [<- Hr]]. rewrite Forall_forall in Hall. apply Hall, Hr. }
  assert (Hstr : language_str order transcript_data = code).
  { unfold language_str. rewrite Hcodes. reflexivity. }
  split; [exact Hstr|]. unfold filename. rewrite Hstr. reflexivity.
Qed.

End SingleLanguage.

Section CompleteExamples.

Import Example.
Local Open Scope string_scope.

Lemma X19_witness :
  exists rows,
    fst (extract_loop "abc123" available_transcripts [0; 1; 3]%Z []) = inr rows
    /\ List.length rows = 3.
Proof.
  destruct (X19_complete_entries_lose_nothing "abc123" available_transcripts
              [0; 1; 3]%Z) as [rows [Hloop [_ Hrows]]].
  - repeat apply Forall_cons; try apply Forall_nil.
    + exists en_manual. split; reflexivity.
    + exists es_auto. split; reflexivity.
    + exists en_empty. split; reflexivity.
  - exists rows. split; [exact Hloop|]. rewrite Hrows. reflexivity.
Defined.

Lemma X20_witness :
  language_str last_occurrence_order [row_in "ja"; row_in "ja"; row_in "ja"] = "ja".
Proof.
  apply (X20_single_language_file_names last_occurrence_order
           [row_in "ja"; row_in "ja"; row_in "ja"] "ja" "t" "s").
  - discriminate.
  - repeat constructor.
Defined.

End CompleteExamples.
